(** * log.c: the dispatch core of a small logging facade

    A shallow embedding of [src/log.c] and [src/log.h]: the registry [L],
    the setters, sink registration ([log_add_callback], [log_add_fp]),
    [log_level_string] and the dispatcher [log_log] with its helpers
    [lock], [unlock] and [init_event].

    The C code works on one file-private global [L], on a stack-allocated
    [log_Event] handed to every sink by pointer, and on the outside world
    (the system clock, the lock hook, the sinks).  Here every function is
    a computation in a small state-and-output monad: the state holds [L]
    and the clock, the output is the sequence of calls that leave the
    translation unit, in the order in which they are made.

    Sinks and the lock hook are foreign code.  The development records
    each call made to them together with the arguments passed; what they
    print is outside its scope.  They are taken not to write through the
    event pointer and not to call back into the logging API, and [time]
    and [localtime] are taken to succeed. *)

From Stdlib Require Import ZArith Lia String Ascii DecimalString.
From stdpp Require Import base tactics option list.

Local Open Scope Z_scope.

(** ** Data, as declared in [log.h] and at the top of [log.c] *)

(** [#define MAX_CALLBACKS 32] *)
Definition MAX_CALLBACKS : nat := 32.

(** Opaque addresses ([void *], [FILE *]); [0] is the null pointer. *)
Definition ptr := Z.
Definition NULL : ptr := 0.

(** The stream the default console sink is bound to. *)
Definition stderr : ptr := 2.

(** [typedef enum { LOG_TRACE, ..., LOG_FATAL } log_level;] *)
Inductive log_level : Set :=
| LOG_TRACE | LOG_DEBUG | LOG_INFO | LOG_WARN | LOG_ERROR | LOG_FATAL.

(** The integer value of an enumerator. *)
Definition level_val (l : log_level) : Z :=
  match l with
  | LOG_TRACE => 0 | LOG_DEBUG => 1 | LOG_INFO => 2
  | LOG_WARN => 3 | LOG_ERROR => 4 | LOG_FATAL => 5
  end.

(** [a >= b] on levels, the comparison used by [log_log]. *)
Definition level_ge (a b : log_level) : bool := level_val a >=? level_val b.

(** The broken-down time [localtime] points to, kept abstract. *)
Definition tm := Z.

(** The variadic arguments a [va_list] ranges over. *)
Definition va_list := list Z.

(** Non-null values of type [log_LogFn]: the two sinks defined in [log.c]
    and the functions of the embedding program. *)
Inductive log_LogFn : Set :=
| stdout_callback
| file_callback
| extern_callback (id : nat).

(** Non-null values of type [log_LockFn]. *)
Inductive log_LockFn : Set :=
| extern_lock (id : nat).

Record log_Event : Set := mk_Event {
  ev_ap : va_list;
  ev_fmt : string;
  ev_file : string;
  ev_time : option tm;      (* [struct tm *time], [None] is NULL *)
  ev_udata : ptr;
  ev_line : Z;
  ev_level : log_level
}.

Record Callback : Set := mk_Callback {
  cb_fn : option log_LogFn;  (* [None] is NULL: the slot is free *)
  cb_udata : ptr;
  cb_level : log_level
}.

(** The anonymous struct of the global [L]. *)
Record Registry : Set := mk_Registry {
  L_udata : ptr;
  L_lock : option log_LockFn;
  L_level : log_level;
  L_quiet : bool;
  L_callbacks : list Callback   (* [Callback callbacks[MAX_CALLBACKS]] *)
}.

(** A slot of zero-initialised static storage. *)
Definition Callback_zero : Callback := mk_Callback None NULL LOG_TRACE.

(** [L] at program start: static storage is zero-initialised. *)
Definition L_init : Registry :=
  mk_Registry NULL None LOG_TRACE false (replicate MAX_CALLBACKS Callback_zero).

(** ** Calls that leave [log.c] *)

Inductive Effect : Set :=
| LockCall (fn : log_LockFn) (locking : bool) (udata : ptr)
    (* [L.lock(locking, L.udata)] *)
| ClockQuery (t : tm)
    (* [time(NULL)] followed by [localtime], yielding [t] *)
| ConsoleCall (ev : log_Event)
    (* [stdout_callback(&ev)] from [log_log] *)
| SinkCall (slot : nat) (fn : log_LogFn) (ev : log_Event).
    (* [cb->fn(&ev)] with [cb = &L.callbacks[slot]] *)

(** ** The monad: state [L] and the clock, output the calls made *)

Record state : Type := mk_state {
  st_L : Registry;
  st_clock : nat -> tm;     (* the reading the n-th clock query returns *)
  st_ticks : nat            (* clock queries made so far *)
}.

Definition M (A : Type) : Type := state -> A * state * list Effect.

Definition ret {A} (a : A) : M A := fun s => (a, s, []).

Definition bind {A B} (m : M A) (k : A -> M B) : M B :=
  fun s =>
    let '(a, s1, o1) := m s in
    let '(b, s2, o2) := k a s1 in
    (b, s2, o1 ++ o2).

Declare Scope log_scope.
Delimit Scope log_scope with log.
Notation "x <- m ;; k" := (bind m (fun x => k))
  (at level 100, m at next level, right associativity) : log_scope.
Notation "m ;; k" := (bind m (fun _ => k))
  (at level 100, right associativity) : log_scope.
Local Open Scope log_scope.

Definition get_L : M Registry := fun s => (st_L s, s, []).

Definition put_L (L : Registry) : M unit :=
  fun s => (tt, mk_state L (st_clock s) (st_ticks s), []).

Definition emit (e : Effect) : M unit := fun s => (tt, s, [e]).

(** [time_t t = time(NULL); ... localtime(&t)] *)
Definition localtime_now : M tm :=
  fun s =>
    let t := st_clock s (st_ticks s) in
    (t, mk_state (st_L s) (st_clock s) (S (st_ticks s)), [ClockQuery t]).

Definition result {A} (r : A * state * list Effect) : A := fst (fst r).
Definition final {A} (r : A * state * list Effect) : state := snd (fst r).
Definition trace {A} (r : A * state * list Effect) : list Effect := snd r.

(** ** The functions of [log.c] *)

(** [static const char *level_strings[]] *)
Definition level_strings : list string :=
  ["TRACE"; "DEBUG"; "INFO"; "WARN"; "ERROR"; "FATAL"]%string.

(** [log_level_string]: [return level_strings[level];] *)
Definition log_level_string (level : log_level) : option string :=
  level_strings !! Z.to_nat (level_val level).

(** [lock]: [if (L.lock) L.lock(true, L.udata);] *)
Definition lock : M unit :=
  L <- get_L;;
  match L_lock L with
  | Some f => emit (LockCall f true (L_udata L))
  | None => ret tt
  end.

(** [unlock]: [if (L.lock) L.lock(false, L.udata);] *)
Definition unlock : M unit :=
  L <- get_L;;
  match L_lock L with
  | Some f => emit (LockCall f false (L_udata L))
  | None => ret tt
  end.

(** [log_set_lock]: [L.lock = fn; L.udata = udata;] *)
Definition log_set_lock (fn : option log_LockFn) (udata : ptr) : M unit :=
  L <- get_L;;
  put_L (mk_Registry udata fn (L_level L) (L_quiet L) (L_callbacks L)).

(** [log_set_level]: [L.level = level;] *)
Definition log_set_level (level : log_level) : M unit :=
  L <- get_L;;
  put_L (mk_Registry (L_udata L) (L_lock L) level (L_quiet L) (L_callbacks L)).

(** [log_set_quiet]: [L.quiet = enable;] *)
Definition log_set_quiet (enable : bool) : M unit :=
  L <- get_L;;
  put_L (mk_Registry (L_udata L) (L_lock L) (L_level L) enable (L_callbacks L)).

(** [L.callbacks[i] = cb;] *)
Definition store_callback (i : nat) (cb : Callback) : M unit :=
  L <- get_L;;
  put_L (mk_Registry (L_udata L) (L_lock L) (L_level L) (L_quiet L)
           (<[i := cb]> (L_callbacks L))).

(** The loop of [log_add_callback] from index [i] on, with [n] iterations
    left ([i + n = MAX_CALLBACKS]); falling out of the loop returns [-1].
    An index past the end of the list cannot arise for a 32-slot array;
    it is treated as the end of the array. *)
Fixpoint add_callback_from (n i : nat) (cb : Callback) : M Z :=
  match n with
  | O => ret (-1)
  | S n' =>
      L <- get_L;;
      match L_callbacks L !! i with
      | Some slot =>
          match cb_fn slot with
          | None => store_callback i cb;; ret 0
          | Some _ => add_callback_from n' (S i) cb
          end
      | None => ret (-1)
      end
  end.

(** [log_add_callback] *)
Definition log_add_callback (fn : option log_LogFn) (udata : ptr)
    (level : log_level) : M Z :=
  add_callback_from MAX_CALLBACKS 0 (mk_Callback fn udata level).

(** [log_add_fp]: [return log_add_callback(file_callback, fp, level);] *)
Definition log_add_fp (fp : ptr) (level : log_level) : M Z :=
  log_add_callback (Some file_callback) fp level.

Definition set_time (t : option tm) (ev : log_Event) : log_Event :=
  mk_Event (ev_ap ev) (ev_fmt ev) (ev_file ev) t (ev_udata ev) (ev_line ev)
    (ev_level ev).

Definition set_udata (udata : ptr) (ev : log_Event) : log_Event :=
  mk_Event (ev_ap ev) (ev_fmt ev) (ev_file ev) (ev_time ev) udata (ev_line ev)
    (ev_level ev).

(** [va_start(ev.ap, fmt)]: [ev.ap] ranges over the variadic arguments. *)
Definition va_start (args : va_list) (ev : log_Event) : log_Event :=
  mk_Event args (ev_fmt ev) (ev_file ev) (ev_time ev) (ev_udata ev)
    (ev_line ev) (ev_level ev).

(** [init_event]: the clock is read only while [ev->time] is still NULL;
    the event is returned as updated through the pointer. *)
Definition init_event (ev : log_Event) (udata : ptr) : M log_Event :=
  ev1 <- match ev_time ev with
         | None => t <- localtime_now;; ret (set_time (Some t) ev)
         | Some _ => ret ev
         end;;
  ret (set_udata udata ev1).

(** The [for] loop of [log_log] from index [i] on, with [n] iterations
    left; it stops at the first slot whose [fn] is NULL. *)
Fixpoint dispatch_from (n i : nat) (level : log_level) (args : va_list)
    (ev : log_Event) : M unit :=
  match n with
  | O => ret tt
  | S n' =>
      L <- get_L;;
      match L_callbacks L !! i with
      | Some cb =>
          match cb_fn cb with
          | Some f =>
              ev' <- (if level_ge level (cb_level cb) then
                        ev1 <- init_event ev (cb_udata cb);;
                        let ev2 := va_start args ev1 in
                        emit (SinkCall i f ev2);;
                        ret ev2
                      else ret ev);;
              dispatch_from n' (S i) level args ev'
          | None => ret tt
          end
      | None => ret tt
      end
  end.

(** [log_log]; [args] stands for the arguments passed through [...]. *)
Definition log_log (level : log_level) (file : string) (line : Z)
    (fmt : string) (args : va_list) : M unit :=
  let ev := mk_Event [] fmt file None NULL line level in
  lock;;
  L <- get_L;;
  ev' <- (if negb (L_quiet L) && level_ge level (L_level L) then
            ev1 <- init_event ev stderr;;
            let ev2 := va_start args ev1 in
            emit (ConsoleCall ev2);;
            ret ev2
          else ret ev);;
  dispatch_from MAX_CALLBACKS 0 level args ev';;
  unlock.

(** ** Reading a run: observers on the calls made *)

Definition is_lock_call (e : Effect) : bool :=
  match e with LockCall _ _ _ => true | _ => false end.

Definition is_clock_query (e : Effect) : bool :=
  match e with ClockQuery _ => true | _ => false end.

Definition is_console_call (e : Effect) : bool :=
  match e with ConsoleCall _ => true | _ => false end.

Definition is_registered_call (e : Effect) : bool :=
  match e with SinkCall _ _ _ => true | _ => false end.

(** A sink invocation: the default console sink or a registered sink. *)
Definition is_sink_call (e : Effect) : bool :=
  is_console_call e || is_registered_call e.

Definition slot_of (e : Effect) : option nat :=
  match e with SinkCall i _ _ => Some i | _ => None end.

Definition is_call_of_slot (i : nat) (e : Effect) : bool :=
  match e with SinkCall j _ _ => Nat.eqb i j | _ => false end.

(** The event a sink is handed. *)
Definition event_of (e : Effect) : option log_Event :=
  match e with
  | ConsoleCall ev | SinkCall _ _ ev => Some ev
  | _ => None
  end.

Definition lock_calls (tr : list Effect) : list Effect :=
  List.filter is_lock_call tr.

Definition console_calls (tr : list Effect) : list Effect :=
  List.filter is_console_call tr.

Definition registered_calls (tr : list Effect) : list Effect :=
  List.filter is_registered_call tr.

Definition sink_invocations (tr : list Effect) : list Effect :=
  List.filter is_sink_call tr.

Definition calls_of_slot (i : nat) (tr : list Effect) : list Effect :=
  List.filter (is_call_of_slot i) tr.

(** The calls made inside the lock bracket. *)
Definition unlocked (tr : list Effect) : list Effect :=
  List.filter (fun e => negb (is_lock_call e)) tr.

Definition clock_queries (tr : list Effect) : nat :=
  length (List.filter is_clock_query tr).

(** The slots whose sink was invoked, in the order of invocation. *)
Definition invoked_slots (tr : list Effect) : list nat := omap slot_of tr.

(** ** The registered sinks of a registry *)

Fixpoint take_while {A} (p : A -> bool) (l : list A) : list A :=
  match l with
  | [] => []
  | x :: l' => if p x then x :: take_while p l' else []
  end.

Definition has_fn (cb : Callback) : bool :=
  match cb_fn cb with Some _ => true | None => false end.

(** The registrations in force: the slots before the first free one,
    in slot order. *)
Definition registered (L : Registry) : list Callback :=
  take_while has_fn (take MAX_CALLBACKS (L_callbacks L)).

(** Does the [k]-th registration of [l] accept severity [level]? *)
Definition qualifies (level : log_level) (l : list Callback) (k : nat) : bool :=
  match l !! k with
  | Some cb => level_ge level (cb_level cb)
  | None => false
  end.

(** The event as a sink bound to [udata] sees it once the timestamp [t]
    has been captured. *)
Definition stamped (t : tm) (args : va_list) (udata : ptr) (ev : log_Event)
    : log_Event :=
  mk_Event args (ev_fmt ev) (ev_file ev) (Some t) udata (ev_line ev)
    (ev_level ev).

(** The sink calls of the loop of [log_log] over the slots [l], the first
    of which has index [i]. *)
Fixpoint sink_calls (level : log_level) (args : va_list) (ev : log_Event)
    (t : tm) (i : nat) (l : list Callback) : list Effect :=
  match l with
  | [] => []
  | cb :: l' =>
      match cb_fn cb with
      | None => []
      | Some f =>
          (if level_ge level (cb_level cb)
           then [SinkCall i f (stamped t args (cb_udata cb) ev)] else [])
          ++ sink_calls level args ev t (S i) l'
      end
  end.

(** One more clock query made. *)
Definition ticked (s : state) : state :=
  mk_state (st_L s) (st_clock s) (S (st_ticks s)).

(** The clock is read before the first of [calls], if there is one and no
    reading was taken before. *)
Definition with_clock (captured : option tm) (t : tm) (calls : list Effect)
    : list Effect :=
  match captured, calls with
  | None, _ :: _ => ClockQuery t :: calls
  | _, _ => calls
  end.

Definition after_clock (captured : option tm) (calls : list Effect)
    (s : state) : state :=
  match captured, calls with
  | None, _ :: _ => ticked s
  | _, _ => s
  end.

(** A client that registers the sinks of [reqs] one after the other and
    collects the return values. *)
Fixpoint register_all (reqs : list (log_LogFn * ptr * log_level))
    : M (list Z) :=
  match reqs with
  | [] => ret []
  | (f, udata, level) :: reqs' =>
      r <- log_add_callback (Some f) udata level;;
      rs <- register_all reqs';;
      ret (r :: rs)
  end.

Definition Callback_of (req : log_LogFn * ptr * log_level) : Callback :=
  mk_Callback (Some (fst (fst req))) (snd (fst req)) (snd req).

(** The array after the registrations [cbs] were stored in order. *)
Definition slots_of (cbs : list Callback) : list Callback :=
  take MAX_CALLBACKS cbs
  ++ replicate (MAX_CALLBACKS - length cbs) Callback_zero.

Definition set_callbacks (cbs : list Callback) (s : state) : state :=
  mk_state
    (mk_Registry (L_udata (st_L s)) (L_lock (st_L s)) (L_level (st_L s))
       (L_quiet (st_L s)) cbs)
    (st_clock s) (st_ticks s).

(** The spec's [addSink]: append when there is room, otherwise report
    CapacityExceeded ([-1]) and change nothing. *)
Definition addSink_spec (cb : Callback) : M Z :=
  fun s =>
    let cbs := L_callbacks (st_L s) in
    match list_find (fun c => cb_fn c = None) (take MAX_CALLBACKS cbs) with
    | Some (i, _) => (0, set_callbacks (<[i := cb]> cbs) s, [])
    | None => (-1, s, [])
    end.

(** The spec's [addFileSink]: [addSink] of the built-in file sink with the
    file handle as its context. *)
Definition addFileSink_spec (handle : ptr) (minLevel : log_level) : M Z :=
  addSink_spec (mk_Callback (Some file_callback) handle minLevel).

(** The lock hook call of [lock] ([locking = true]) or [unlock]. *)
Definition lock_bracket (locking : bool) (L : Registry) : list Effect :=
  match L_lock L with
  | Some f => [LockCall f locking (L_udata L)]
  | None => []
  end.

(** The call of the default console sink, when it is made. *)
Definition console_part (level : log_level) (args : va_list) (t : tm)
    (ev : log_Event) (L : Registry) : list Effect :=
  if negb (L_quiet L) && level_ge level (L_level L)
  then [ConsoleCall (stamped t args stderr ev)] else [].

(** The event [log_log] starts from. *)
Definition fresh_event (level : log_level) (file : string) (line : Z)
    (fmt : string) : log_Event :=
  mk_Event [] fmt file None NULL line level.

(** All sink calls of one dispatch, in order. *)
Definition dispatch_calls (level : log_level) (file : string) (line : Z)
    (fmt : string) (args : va_list) (s : state) : list Effect :=
  let ev := fresh_event level file line fmt in
  let t := st_clock s (st_ticks s) in
  console_part level args t ev (st_L s)
  ++ sink_calls level args ev t 0 (take MAX_CALLBACKS (L_callbacks (st_L s))).

(** The return value of the [k]-th registration (counting from 0). *)
Definition registration_result (k : nat) : Z :=
  if (k <? MAX_CALLBACKS)%nat then 0 else -1.

(** A small configuration used to exercise the statements below: global
    level INFO, an external sink accepting everything in slot 0, the file
    sink from WARN on in slot 1, and a clock that starts at 1000. *)
Definition demo_clock (n : nat) : tm := 1000 + Z.of_nat n.

Definition demo_setup : M unit :=
  log_set_level LOG_INFO;;
  _ <- log_add_callback (Some (extern_callback 7)) 77 LOG_TRACE;;
  _ <- log_add_fp 99 LOG_WARN;;
  ret tt.

Definition demo_state : state :=
  final (demo_setup (mk_state L_init demo_clock 0)).

(** ** What a dispatch owes the registered sinks *)

(** The call owed to the registration [cb] held in slot [i]: none when the
    severity is below the level of [cb]; otherwise one call, from that
    slot, of the function stored in [cb], with the event of the dispatch
    bound to the context stored in [cb] and stamped with the reading
    [t]. *)
Definition owed_call (level : log_level) (file : string) (line : Z)
    (fmt : string) (args : va_list) (t : tm) (i : nat) (cb : Callback)
    : option Effect :=
  match cb_fn cb with
  | Some f =>
      if level_ge level (cb_level cb)
      then Some (SinkCall i f
                   (mk_Event args fmt file (Some t) (cb_udata cb) line level))
      else None
  | None => None
  end.

(** The calls owed to the registrations [cbs], in their order. *)
Definition owed_calls (level : log_level) (file : string) (line : Z)
    (fmt : string) (args : va_list) (t : tm) (cbs : list Callback)
    : list Effect :=
  omap id (imap (owed_call level file line fmt args t) cbs).

(** ** The call-site macros of [log.h]

    [log_trace(...)] expands to [log_log(LOG_TRACE, __FILE__, __LINE__,
    ...)], and so on; [file] and [line] stand for what the preprocessor
    puts in. *)

Definition log_trace (file : string) (line : Z) (fmt : string)
    (args : va_list) : M unit := log_log LOG_TRACE file line fmt args.
Definition log_debug (file : string) (line : Z) (fmt : string)
    (args : va_list) : M unit := log_log LOG_DEBUG file line fmt args.
Definition log_info (file : string) (line : Z) (fmt : string)
    (args : va_list) : M unit := log_log LOG_INFO file line fmt args.
Definition log_warn (file : string) (line : Z) (fmt : string)
    (args : va_list) : M unit := log_log LOG_WARN file line fmt args.
Definition log_error (file : string) (line : Z) (fmt : string)
    (args : va_list) : M unit := log_log LOG_ERROR file line fmt args.
Definition log_fatal (file : string) (line : Z) (fmt : string)
    (args : va_list) : M unit := log_log LOG_FATAL file line fmt args.

(** ** Programs over the public interface *)

(** One call of a function declared in [log.h]. *)
Inductive api_call : Set :=
| Call_set_lock (fn : option log_LockFn) (udata : ptr)
| Call_set_level (level : log_level)
| Call_set_quiet (enable : bool)
| Call_add_callback (fn : option log_LogFn) (udata : ptr) (level : log_level)
| Call_add_fp (fp : ptr) (level : log_level)
| Call_log (level : log_level) (file : string) (line : Z) (fmt : string)
    (args : va_list).

(** The call, its return value dropped. *)
Definition run_call (c : api_call) : M unit :=
  match c with
  | Call_set_lock fn udata => log_set_lock fn udata
  | Call_set_level level => log_set_level level
  | Call_set_quiet enable => log_set_quiet enable
  | Call_add_callback fn udata level =>
      _ <- log_add_callback fn udata level;; ret tt
  | Call_add_fp fp level => _ <- log_add_fp fp level;; ret tt
  | Call_log level file line fmt args => log_log level file line fmt args
  end.

Fixpoint run_calls (cs : list api_call) : M unit :=
  match cs with
  | [] => ret tt
  | c :: cs' => run_call c;; run_calls cs'
  end.

(** The shape the loop of [log_log] relies on: the array has its 32 slots,
    and no slot after the first free one holds a function. *)
Definition registry_wf (L : Registry) : Prop :=
  length (L_callbacks L) = MAX_CALLBACKS
  /\ Forall (fun cb => cb_fn cb = None)
       (drop (length (registered L)) (L_callbacks L)).

(** A second configuration: a lock hook, the console muted, and one file
    sink from ERROR on. *)
Definition quiet_setup : M unit :=
  run_calls
    [Call_set_lock (Some (extern_lock 3)) 33;
     Call_set_quiet true;
     Call_add_fp 99 LOG_ERROR].

Definition quiet_state : state :=
  final (quiet_setup (mk_state L_init demo_clock 0)).

(** ** The formatting layer of [log.c]

    C strings are lists of characters here.  The conversions of [printf]
    that the file uses are written out: [%d], [%s], [%-5s] and [%-10s],
    [%6d], and [%*s] applied to the empty string. *)

Definition cstring := list ascii.

Definition cstr (s : string) : cstring := list_ascii_of_string s.

Definition blank : ascii := " "%char.

(** [%d] *)
Definition fmt_d (n : Z) : cstring :=
  cstr (NilZero.string_of_int (Z.to_int n)).

(** [%-5s], [%-10s]: left-justified in a field of [width] characters. *)
Definition fmt_s_left (width : nat) (s : cstring) : cstring :=
  s ++ replicate (width - length s) blank.

(** [%6d]: right-justified in a field of [width] characters. *)
Definition fmt_d_right (width : nat) (n : Z) : cstring :=
  replicate (width - length (fmt_d n)) blank ++ fmt_d n.

(** [%*s] with the empty string as argument: the field is all blanks; a
    negative width asks for left justification in a field of the absolute
    value. *)
Definition fmt_star_empty (width : Z) : cstring :=
  replicate (Z.abs_nat width) blank.

(** What [snprintf(out, size, ...)] leaves in [out] when the conversion
    renders [s]: at most [size - 1] characters.  With [size <= 0] the
    buffer does not hold a string. *)
Definition snprintf (size : Z) (s : cstring) : option cstring :=
  if size <=? 0 then None else Some (take (Z.to_nat (size - 1)) s).

(** [file_loc]: the location column of the console sink under
    [LOG_LOC_ALIGN].  [None] where the C code leaves defined behaviour:
    [fname + offset] past the end of the string, or no room in [out]. *)
Definition file_loc (fname : cstring) (line : Z) (len : Z) : option cstring :=
  let fname_len := Z.of_nat (length fname) in
  let line_nb_buf := take 31 (fmt_d line) in
  let nb_digit := Z.of_nat (length (fmt_d line)) in
  let total := nb_digit + fname_len + 1 in
  if total >? len then
    let offset := total - len + 3 + 1 in
    if offset <=? fname_len
    then snprintf len
           (cstr "..." ++ drop (Z.to_nat offset) fname ++ cstr ":"
            ++ line_nb_buf)
    else None
  else
    let padding := len - total - 1 in
    snprintf len
      (fmt_star_empty padding ++ fname ++ cstr ":" ++ line_nb_buf).

(** The escape character and the line feed. *)
Definition ESC : ascii := ascii_of_nat 27.
Definition newline : ascii := ascii_of_nat 10.

(** [static const char *level_colors[]] *)
Definition level_colors : list string :=
  [String ESC "[94mTRACE"; String ESC "[36mDEBUG"; String ESC "[32mINFO";
   String ESC "[33mWARN"; String ESC "[31mERROR"; String ESC "[35mFATAL"]%string.

(** The build-time switches of [log.c]. *)
Record build : Set := mk_build {
  LOG_USE_COLOR : bool;
  LOG_LOC_ALIGN : bool;
  LOG_PID : bool;
  LOG_LOC_LEN : Z
}.

(** No switch defined; [LOG_LOC_LEN] then defaults to 16. *)
Definition plain_build : build := mk_build false false false 16.

(** [LEVEL_STR] *)
Definition LEVEL_STR (cfg : build) : list string :=
  if LOG_USE_COLOR cfg then level_colors else level_strings.

(** What a sink does to its stream. *)
Inductive io : Set :=
| Fputs (stream : ptr) (text : cstring)
| Fflush (stream : ptr).

Definition io_stream (op : io) : ptr :=
  match op with Fputs stream _ | Fflush stream => stream end.

(** The characters written, in order. *)
Definition io_text (ops : list io) : cstring :=
  concat (map (fun op => match op with Fputs _ text => text | Fflush _ => [] end)
            ops).

Section Sinks.

(** The C library and the process, as far as the sinks use them: the
    rendering of a broken-down time by [strftime], of a format and its
    arguments by [vfprintf], and the process id. *)
Variable strftime : string -> tm -> cstring.
Variable vformat : string -> va_list -> cstring.
Variable getpid : Z.

(** [buf[strftime(buf, size, format, time)] = '\0']: a rendering that does
    not fit makes [strftime] return 0, and [buf] the empty string. *)
Definition strftime_buf (size : nat) (format : string) (t : tm) : cstring :=
  let r := strftime format t in
  if (length r <? size)%nat then r else [].

(** The location as the console sink prints it: [LOC_FMT] with
    [LOC_ARG]. *)
Definition stdout_location (cfg : build) (ev : log_Event) : option cstring :=
  if LOG_LOC_ALIGN cfg
  then file_loc (cstr (ev_file ev)) (ev_line ev) (LOG_LOC_LEN cfg)
  else Some (cstr (ev_file ev) ++ cstr ":" ++ fmt_d (ev_line ev)).

(** The first [fprintf] of [stdout_callback]: [FMT] with its arguments,
    as the switches assemble them.  [None] where the C code leaves
    defined behaviour: a null [ev->time], or [file_loc] doing so. *)
Definition stdout_header (cfg : build) (ev : log_Event) : option cstring :=
  match ev_time ev, stdout_location cfg ev,
        LEVEL_STR cfg !! Z.to_nat (level_val (ev_level ev)) with
  | Some t, Some loc, Some name =>
      let buf := strftime_buf 16 "%H:%M:%S" t in
      Some
        (buf ++ cstr " "
         ++ (if LOG_PID cfg
             then cstr "[" ++ fmt_d_right 6 getpid ++ cstr "] " else [])
         ++ (if LOG_USE_COLOR cfg
             then fmt_s_left 10 (cstr name) ++ ESC :: cstr "[0m "
                  ++ ESC :: cstr "[90m"
             else fmt_s_left 5 (cstr name) ++ cstr " ")
         ++ loc
         ++ (if LOG_USE_COLOR cfg
             then cstr ":" ++ ESC :: cstr "[0m " else cstr ": "))
  | _, _, _ => None
  end.

(** The body of [stdout_callback]: header, message, newline, flush, all
    on [ev->udata]. *)
Definition stdout_callback_body (cfg : build) (ev : log_Event)
    : option (list io) :=
  match stdout_header cfg ev with
  | Some header =>
      Some [Fputs (ev_udata ev) header;
            Fputs (ev_udata ev) (vformat (ev_fmt ev) (ev_ap ev));
            Fputs (ev_udata ev) [newline];
            Fflush (ev_udata ev)]
  | None => None
  end.

(** The first [fprintf] of [file_callback]. *)
Definition file_header (ev : log_Event) : option cstring :=
  match ev_time ev, level_strings !! Z.to_nat (level_val (ev_level ev)) with
  | Some t, Some name =>
      let buf := strftime_buf 64 "%Y-%m-%d %H:%M:%S" t in
      Some
        (buf ++ cstr " " ++ fmt_s_left 5 (cstr name) ++ cstr " "
         ++ cstr (ev_file ev) ++ cstr ":" ++ fmt_d (ev_line ev) ++ cstr ": ")
  | _, _ => None
  end.

(** The body of [file_callback]. *)
Definition file_callback_body (ev : log_Event) : option (list io) :=
  match file_header ev with
  | Some header =>
      Some [Fputs (ev_udata ev) header;
            Fputs (ev_udata ev) (vformat (ev_fmt ev) (ev_ap ev));
            Fputs (ev_udata ev) [newline];
            Fflush (ev_udata ev)]
  | None => None
  end.

End Sinks.

(** The event with another severity. *)
Definition set_level (level : log_level) (ev : log_Event) : log_Event :=
  mk_Event (ev_ap ev) (ev_fmt ev) (ev_file ev) (ev_time ev) (ev_udata ev)
    (ev_line ev) level.

(** A C library for the examples: a fixed clock face, and a message
    renderer that prints the format as it is. *)
Definition demo_strftime (format : string) (t : tm) : cstring :=
  if String.eqb format "%H:%M:%S" then cstr "12:00:00"
  else cstr "2023-01-01 12:00:00".

Definition demo_vformat (format : string) (args : va_list) : cstring :=
  cstr format.

(** ** Properties of the model *)

Section Dispatch.

Variables (level : log_level) (args : va_list).

Lemma stamped_fired t udata ev :
  va_start args (set_udata udata (set_time (Some t) ev))
  = stamped t args udata ev.
Proof. reflexivity. Qed.

Lemma stamped_refired t udata ev :
  ev_time ev = Some t ->
  va_start args (set_udata udata ev) = stamped t args udata ev.
Proof. intros H. destruct ev; simpl in *; subst; reflexivity. Qed.

Lemma sink_calls_stamped t t' args' udata' ev i l :
  sink_calls level args (stamped t' args' udata' ev) t i l
  = sink_calls level args ev t i l.
Proof.
  revert i; induction l as [|cb l IH]; intros i; simpl; [reflexivity|].
  destruct (cb_fn cb); [|reflexivity]. now rewrite IH.
Qed.

Lemma take_drop_lookup {A} (l : list A) n i x :
  l !! i = Some x -> take (S n) (drop i l) = x :: take n (drop (S i) l).
Proof. intros H. now rewrite (drop_S _ _ _ H). Qed.

Lemma take_drop_none {A} (l : list A) n i :
  l !! i = None -> take n (drop i l) = [].
Proof.
  intros H. apply lookup_ge_None in H. rewrite drop_ge by lia.
  now destruct n.
Qed.

(** The loop of [log_log], run on the slots [i], [i+1], ... *)
Lemma dispatch_from_spec n : forall i ev s,
  let t := default (st_clock s (st_ticks s)) (ev_time ev) in
  let calls :=
    sink_calls level args ev t i (take n (drop i (L_callbacks (st_L s)))) in
  dispatch_from n i level args ev s
  = (tt, after_clock (ev_time ev) calls s, with_clock (ev_time ev) t calls).
Proof.
  induction n as [|n IH]; intros i ev s; cbn zeta.
  - simpl. destruct (ev_time ev); reflexivity.
  - cbn [dispatch_from]. unfold bind at 1. cbn [get_L].
    destruct (L_callbacks (st_L s) !! i) as [cb|] eqn:Hi.
    2:{ rewrite (take_drop_none _ _ _ Hi). simpl.
        destruct (ev_time ev); reflexivity. }
    rewrite (take_drop_lookup _ _ _ _ Hi). cbn [sink_calls].
    destruct (cb_fn cb) as [f|] eqn:Hf.
    2:{ simpl. destruct (ev_time ev); reflexivity. }
    destruct (level_ge level (cb_level cb)) eqn:Hge.
    + destruct (ev_time ev) as [t0|] eqn:Ht.
      * unfold bind, init_event, ret, emit; simpl. rewrite Ht; simpl.
        rewrite (stamped_refired t0 _ _ Ht).
        specialize (IH (S i) (stamped t0 args (cb_udata cb) ev) s).
        cbn zeta in IH. simpl in IH. rewrite IH.
        rewrite sink_calls_stamped. reflexivity.
      * unfold bind, init_event, ret, emit, localtime_now; simpl.
        rewrite Ht; simpl.
        specialize (IH (S i)
          (stamped (st_clock s (st_ticks s)) args (cb_udata cb) ev)
          (ticked s)).
        cbn zeta in IH. simpl in IH. unfold ticked at 1 in IH.
        rewrite !stamped_fired, IH. rewrite sink_calls_stamped. reflexivity.
    + unfold bind at 1. cbn [ret]. rewrite (IH (S i) ev s). simpl.
      reflexivity.
Qed.

End Dispatch.

Arguments dispatch_from : simpl never.

Lemma after_clock_L captured calls s :
  st_L (after_clock captured calls s) = st_L s.
Proof. destruct captured, calls; reflexivity. Qed.

Lemma log_log_spec level file line fmt args s :
  let calls := dispatch_calls level file line fmt args s in
  let t := st_clock s (st_ticks s) in
  log_log level file line fmt args s
  = (tt, after_clock None calls s,
     lock_bracket true (st_L s) ++ with_clock None t calls
     ++ lock_bracket false (st_L s)).
Proof.
  cbn zeta. unfold dispatch_calls, console_part, lock_bracket, log_log.
  fold (fresh_event level file line fmt).
  unfold bind, lock, unlock, get_L, bind, emit, ret.
  destruct (L_lock (st_L s)) eqn:Hl; cbv beta iota zeta;
    (destruct (negb (L_quiet (st_L s)) && level_ge level (L_level (st_L s)));
     [ unfold init_event, bind, localtime_now, ret;
       cbn [ev_time fresh_event]; cbv beta iota zeta;
       rewrite stamped_fired, dispatch_from_spec;
       cbv beta iota zeta; rewrite !after_clock_L;
       cbn [ev_time stamped default st_L]; rewrite Hl;
       rewrite drop_0, sink_calls_stamped; reflexivity
     | cbv beta iota zeta; rewrite dispatch_from_spec;
       cbv beta iota zeta; rewrite !after_clock_L;
       cbn [ev_time fresh_event default]; rewrite Hl;
       rewrite drop_0; unfold after_clock, with_clock;
       destruct (sink_calls _ _ _ _ _ _); simpl; rewrite ?app_nil_r;
       reflexivity ]).
Qed.

(** *** Registration *)

Lemma add_callback_from_spec n : forall i cb s,
  add_callback_from n i cb s
  = match list_find (fun c => cb_fn c = None)
            (take n (drop i (L_callbacks (st_L s)))) with
    | Some (k, _) =>
        (0, set_callbacks (<[(i + k)%nat := cb]> (L_callbacks (st_L s))) s, [])
    | None => (-1, s, [])
    end.
Proof.
  induction n as [|n IH]; intros i cb s; [reflexivity|].
  cbn [add_callback_from]. unfold bind at 1. cbn [get_L].
  destruct (L_callbacks (st_L s) !! i) as [slot|] eqn:Hi.
  - rewrite (take_drop_lookup _ _ _ _ Hi). cbn [list_find].
    destruct (cb_fn slot) as [g|] eqn:Hg.
    + rewrite decide_False by discriminate. rewrite IH.
      destruct (list_find _ (take n (drop (S i) (L_callbacks (st_L s)))))
        as [[k c]|]; simpl; [|reflexivity].
      now replace (i + S k)%nat with (S (i + k)) by lia.
    + rewrite decide_True by reflexivity.
      unfold store_callback, bind, get_L, put_L, ret, set_callbacks. simpl.
      now rewrite Nat.add_0_r.
  - now rewrite (take_drop_none _ _ _ Hi).
Qed.

Arguments add_callback_from : simpl never.

Lemma log_add_callback_spec fn udata level s :
  log_add_callback fn udata level s
  = addSink_spec (mk_Callback fn udata level) s.
Proof.
  unfold log_add_callback, addSink_spec.
  rewrite add_callback_from_spec, drop_0.
  destruct (list_find _ _) as [[k c]|]; reflexivity.
Qed.

Lemma has_fn_free cb : has_fn cb = false <-> cb_fn cb = None.
Proof. unfold has_fn. destruct (cb_fn cb); split; congruence. Qed.

Lemma take_while_find (l : list Callback) :
  take_while has_fn l
  = match list_find (fun c => cb_fn c = None) l with
    | Some (i, _) => take i l
    | None => l
    end.
Proof.
  induction l as [|cb l IH]; [reflexivity|]. cbn [take_while list_find].
  destruct (decide (cb_fn cb = None)) as [Hf|Hf].
  - apply has_fn_free in Hf. now rewrite Hf.
  - destruct (has_fn cb) eqn:Hh; [|now apply has_fn_free in Hh].
    rewrite IH. destruct (list_find _ l) as [[i c]|]; reflexivity.
Qed.

Lemma take_while_all {A} (p : A -> bool) (l : list A) :
  Forall (fun x => p x = true) l -> take_while p l = l.
Proof. induction 1 as [|x l Hx _ IH]; simpl; [|rewrite Hx, IH]; reflexivity. Qed.

Lemma take_while_app {A} (p : A -> bool) (l : list A) x k :
  Forall (fun x => p x = true) l -> p x = false ->
  take_while p (l ++ x :: k) = l.
Proof.
  induction 1 as [|y l Hy _ IH]; intros Hx; simpl.
  - now rewrite Hx.
  - now rewrite Hy, IH.
Qed.

Lemma take_while_app_prefix {A} (p : A -> bool) (l k : list A) :
  Forall (fun x => p x = true) l -> l `prefix_of` take_while p (l ++ k).
Proof.
  induction 1 as [|y l Hy _ IH]; simpl; [apply prefix_nil|].
  rewrite Hy. now apply prefix_cons.
Qed.

(** Registering never reorders or drops a registration in force. *)
Lemma registered_add_prefix fn udata level s :
  registered (st_L s)
  `prefix_of` registered (st_L (final (log_add_callback fn udata level s))).
Proof.
  rewrite log_add_callback_spec. unfold addSink_spec, registered.
  destruct (list_find _ _) as [[i c]|] eqn:Hfind; [|reflexivity].
  unfold final; cbn [fst snd set_callbacks st_L L_callbacks].
  rewrite take_while_find, Hfind.
  apply list_find_Some in Hfind as (Hi & Hc & Hbefore).
  assert (Hall : Forall (fun x => has_fn x = true)
                   (take i (take MAX_CALLBACKS (L_callbacks (st_L s))))).
  { apply Forall_lookup_2. intros j x Hj.
    apply lookup_take_Some in Hj as [Hj Hlt].
    specialize (Hbefore j x Hj Hlt).
    destruct (has_fn x) eqn:Hx; [reflexivity|].
    now apply has_fn_free in Hx. }
  apply lookup_take_Some in Hi as [Hi Hlt].
  pose proof (lookup_lt_Some _ _ _ Hi) as Hlen.
  rewrite take_take, Nat.min_l in * by lia.
  rewrite <- (take_drop i (take MAX_CALLBACKS (<[i:=_]> _))).
  rewrite take_take, Nat.min_l by lia.
  rewrite take_insert_ge by lia.
  now apply take_while_app_prefix.
Qed.

(** *** The sink calls of the dispatch loop *)

Section SinkCalls.

Variables (level : log_level) (args : va_list) (ev : log_Event) (t : tm).

Lemma filter_cons_bool {A} (p : A -> bool) x (l : list A) :
  List.filter p (x :: l)
  = if p x then x :: List.filter p l else List.filter p l.
Proof. reflexivity. Qed.

Lemma filter_all {A} (p : A -> bool) (l : list A) :
  Forall (fun x => p x = true) l -> List.filter p l = l.
Proof. induction 1 as [|x l Hx _ IH]; simpl; [|rewrite Hx, IH]; reflexivity. Qed.

Lemma filter_none {A} (p : A -> bool) (l : list A) :
  Forall (fun x => p x = false) l -> List.filter p l = [].
Proof. induction 1 as [|x l Hx _ IH]; simpl; [|rewrite Hx, IH]; reflexivity. Qed.

(** The loop never looks past the first free slot. *)
Lemma sink_calls_registered i l :
  sink_calls level args ev t i l
  = sink_calls level args ev t i (take_while has_fn l).
Proof.
  revert i; induction l as [|cb l IH]; intros i; [reflexivity|].
  cbn [sink_calls take_while]. unfold has_fn at 1.
  destruct (cb_fn cb) eqn:Hf; [|reflexivity].
  cbn [sink_calls]. now rewrite Hf, IH.
Qed.

(** Every call of the loop goes to a registered sink, from a slot not
    below the start index, with the shared timestamp. *)
Lemma sink_calls_shape i l :
  Forall (fun e => exists j f udata,
            e = SinkCall j f (stamped t args udata ev) /\ (i <= j)%nat)
    (sink_calls level args ev t i l).
Proof.
  revert i; induction l as [|cb l IH]; intros i; cbn [sink_calls];
    [constructor|].
  destruct (cb_fn cb) as [f|]; [|constructor].
  apply Forall_app; split.
  - destruct (level_ge level (cb_level cb)); repeat constructor.
    exists i, f, (cb_udata cb). split; [reflexivity | lia].
  - eapply Forall_impl; [apply (IH (S i))|].
    intros e (j & g & u & -> & Hj). exists j, g, u. split; [reflexivity | lia].
Qed.

Lemma sink_calls_kind (p : Effect -> bool) i l :
  (forall j f e, p (SinkCall j f e) = true) ->
  List.filter p (sink_calls level args ev t i l)
  = sink_calls level args ev t i l.
Proof.
  intros Hp. apply filter_all.
  eapply Forall_impl; [apply sink_calls_shape|].
  intros e (j & f & u & -> & _). apply Hp.
Qed.

Lemma sink_calls_not_kind (p : Effect -> bool) i l :
  (forall j f e, p (SinkCall j f e) = false) ->
  List.filter p (sink_calls level args ev t i l) = [].
Proof.
  intros Hp. apply filter_none.
  eapply Forall_impl; [apply sink_calls_shape|].
  intros e (j & f & u & -> & _). apply Hp.
Qed.

(** Slots below the start index are not called. *)
Lemma sink_calls_below k i l :
  (k < i)%nat -> calls_of_slot k (sink_calls level args ev t i l) = [].
Proof.
  intros Hk. apply filter_none.
  eapply Forall_impl; [apply sink_calls_shape|].
  intros e (j & f & u & -> & Hj). simpl. apply Nat.eqb_neq. lia.
Qed.

(** The slots called are the qualifying registrations, in slot order. *)
Lemma sink_calls_slots i l :
  invoked_slots (sink_calls level args ev t i l)
  = List.filter
      (fun j => qualifies level (take_while has_fn l) (j - i))
      (seq i (length (take_while has_fn l))).
Proof.
  revert i; induction l as [|cb l IH]; intros i; [reflexivity|].
  cbn [sink_calls take_while]. unfold has_fn at 1 3.
  destruct (cb_fn cb) as [f|] eqn:Hf; [|reflexivity].
  unfold invoked_slots in *. rewrite omap_app, IH.
  cbn [length seq List.filter]. unfold qualifies at 2.
  rewrite Nat.sub_diag. cbn [lookup list_lookup].
  assert (Hrest :
    List.filter (fun j => qualifies level (take_while has_fn l) (j - S i))
      (seq (S i) (length (take_while has_fn l)))
    = List.filter
        (fun j => qualifies level (cb :: take_while has_fn l) (j - i))
        (seq (S i) (length (take_while has_fn l)))).
  { apply List.filter_ext_in. intros j Hj. apply in_seq in Hj.
    replace (j - i)%nat with (S (j - S i)) by lia. reflexivity. }
  rewrite Hrest.
  destruct (level_ge level (cb_level cb)); reflexivity.
Qed.

(** The [k]-th registration is called once if it qualifies, and not at
    all otherwise. *)
Lemma sink_calls_of_slot : forall l i k cb f,
  take_while has_fn l !! k = Some cb -> cb_fn cb = Some f ->
  calls_of_slot (i + k) (sink_calls level args ev t i l)
  = if level_ge level (cb_level cb)
    then [SinkCall (i + k) f (stamped t args (cb_udata cb) ev)] else [].
Proof.
  induction l as [|c l IH]; intros i k cb f Hk Hf; [discriminate|].
  cbn [take_while] in Hk. cbn [sink_calls]. unfold has_fn in Hk at 1.
  destruct (cb_fn c) as [g|] eqn:Hg; [|discriminate].
  unfold calls_of_slot in *. rewrite List.filter_app.
  destruct k as [|k].
  - cbn [lookup list_lookup] in Hk. injection Hk as ->.
    rewrite Hf in Hg; injection Hg as <-.
    rewrite Nat.add_0_r.
    fold (calls_of_slot i (sink_calls level args ev t (S i) l)).
    rewrite sink_calls_below by lia. rewrite app_nil_r.
    destruct (level_ge level (cb_level cb)); simpl;
      [rewrite Nat.eqb_refl|]; reflexivity.
  - cbn [lookup list_lookup] in Hk.
    replace (i + S k)%nat with (S i + k)%nat by lia.
    rewrite (IH (S i) k cb f Hk Hf).
    destruct (level_ge level (cb_level c)); [|reflexivity].
    cbn [List.filter is_call_of_slot].
    replace (S i + k =? i)%nat with false; [reflexivity|].
    symmetry. apply Nat.eqb_neq. lia.
Qed.

End SinkCalls.

(** *** Reading the trace of one dispatch *)

Section DispatchTrace.

Variables (level : log_level) (file : string) (line : Z) (fmt : string)
  (args : va_list) (s : state).

Local Abbreviation tr := (trace (log_log level file line fmt args s)).
Local Abbreviation calls := (dispatch_calls level file line fmt args s).
Local Abbreviation now := (st_clock s (st_ticks s)).
Local Abbreviation ev := (fresh_event level file line fmt).
Local Abbreviation sinks :=
  (sink_calls level args ev now 0 (take MAX_CALLBACKS (L_callbacks (st_L s)))).

Lemma log_log_trace :
  tr = lock_bracket true (st_L s) ++ with_clock None now calls
       ++ lock_bracket false (st_L s).
Proof. unfold tr. now rewrite log_log_spec. Qed.

Lemma log_log_final :
  final (log_log level file line fmt args s) = after_clock None calls s.
Proof. now rewrite log_log_spec. Qed.

Lemma dispatch_calls_kind (p : Effect -> bool) :
  (forall e, p (ConsoleCall e) = true) ->
  (forall j f e, p (SinkCall j f e) = true) ->
  List.filter p calls = calls.
Proof.
  intros Hc Hs. unfold calls, dispatch_calls, console_part.
  rewrite List.filter_app, sink_calls_kind by assumption.
  destruct (negb _ && _); simpl; [rewrite Hc|]; reflexivity.
Qed.

Lemma dispatch_calls_not_kind (p : Effect -> bool) :
  (forall e, p (ConsoleCall e) = false) ->
  (forall j f e, p (SinkCall j f e) = false) ->
  List.filter p calls = [].
Proof.
  intros Hc Hs. unfold calls, dispatch_calls, console_part.
  rewrite List.filter_app, sink_calls_not_kind by assumption.
  destruct (negb _ && _); simpl; [rewrite Hc|]; reflexivity.
Qed.

Lemma lock_bracket_kind (p : Effect -> bool) b :
  (forall f c u, p (LockCall f c u) = true) ->
  List.filter p (lock_bracket b (st_L s)) = lock_bracket b (st_L s).
Proof.
  intros Hp. unfold lock_bracket.
  destruct (L_lock (st_L s)); simpl; [rewrite Hp|]; reflexivity.
Qed.

Lemma lock_bracket_not_kind (p : Effect -> bool) b :
  (forall f c u, p (LockCall f c u) = false) ->
  List.filter p (lock_bracket b (st_L s)) = [].
Proof.
  intros Hp. unfold lock_bracket.
  destruct (L_lock (st_L s)); simpl; [rewrite Hp|]; reflexivity.
Qed.

(** Filtering the trace by a kind of call that is neither a lock call nor
    a clock query. *)
Lemma trace_filter_calls (p : Effect -> bool) :
  (forall f c u, p (LockCall f c u) = false) ->
  (forall t, p (ClockQuery t) = false) ->
  List.filter p tr = List.filter p calls.
Proof.
  intros Hl Hq. rewrite log_log_trace, !List.filter_app.
  rewrite !lock_bracket_not_kind by assumption. rewrite app_nil_r. simpl.
  unfold with_clock. destruct calls; [reflexivity|].
  cbn [List.filter]. now rewrite Hq.
Qed.

Lemma trace_sink_invocations : sink_invocations tr = calls.
Proof.
  unfold sink_invocations. rewrite trace_filter_calls by reflexivity.
  now apply dispatch_calls_kind.
Qed.

Lemma trace_console_calls :
  console_calls tr = console_part level args now ev (st_L s).
Proof.
  unfold console_calls. rewrite trace_filter_calls by reflexivity.
  unfold calls, dispatch_calls. rewrite List.filter_app.
  rewrite sink_calls_not_kind, app_nil_r by reflexivity.
  unfold console_part. now destruct (negb _ && _).
Qed.

Lemma trace_registered_calls : registered_calls tr = sinks.
Proof.
  unfold registered_calls. rewrite trace_filter_calls by reflexivity.
  unfold calls, dispatch_calls. rewrite List.filter_app.
  rewrite sink_calls_kind by reflexivity.
  unfold console_part. now destruct (negb _ && _).
Qed.

Lemma trace_calls_of_slot i : calls_of_slot i tr = calls_of_slot i sinks.
Proof.
  unfold calls_of_slot. rewrite trace_filter_calls by reflexivity.
  unfold calls, dispatch_calls. rewrite List.filter_app.
  unfold console_part. now destruct (negb _ && _).
Qed.

Lemma trace_lock_calls :
  lock_calls tr = lock_bracket true (st_L s) ++ lock_bracket false (st_L s).
Proof.
  unfold lock_calls. rewrite log_log_trace, !List.filter_app.
  rewrite !lock_bracket_kind by reflexivity.
  replace (List.filter is_lock_call (with_clock None now calls)) with
    (@nil Effect); [reflexivity|].
  pose proof (dispatch_calls_not_kind is_lock_call) as H.
  unfold with_clock. destruct calls; [reflexivity|].
  cbn [List.filter is_lock_call]. symmetry. now apply H.
Qed.

Lemma trace_unlocked : unlocked tr = with_clock None now calls.
Proof.
  unfold unlocked. rewrite log_log_trace, !List.filter_app.
  rewrite !lock_bracket_not_kind by reflexivity. rewrite app_nil_r. simpl.
  pose proof (dispatch_calls_kind (fun e => negb (is_lock_call e))) as H.
  unfold with_clock. destruct calls; [reflexivity|].
  rewrite filter_cons_bool. cbn [is_lock_call negb]. f_equal.
  now apply H.
Qed.

Lemma trace_clock_queries :
  clock_queries tr = match calls with [] => 0%nat | _ :: _ => 1%nat end.
Proof.
  unfold clock_queries. rewrite log_log_trace, !List.filter_app.
  rewrite !lock_bracket_not_kind by reflexivity. rewrite app_nil_r. simpl.
  pose proof (dispatch_calls_not_kind is_clock_query) as H.
  unfold with_clock. destruct calls; [reflexivity|].
  rewrite filter_cons_bool. cbn [is_clock_query].
  now rewrite H.
Qed.

Lemma trace_invoked_slots :
  invoked_slots tr
  = List.filter (qualifies level (registered (st_L s)))
      (seq 0 (length (registered (st_L s)))).
Proof.
  unfold invoked_slots. rewrite log_log_trace, !omap_app.
  replace (omap slot_of (lock_bracket true (st_L s))) with (@nil nat)
    by (unfold lock_bracket; now destruct (L_lock (st_L s))).
  replace (omap slot_of (lock_bracket false (st_L s))) with (@nil nat)
    by (unfold lock_bracket; now destruct (L_lock (st_L s))).
  rewrite app_nil_r. cbn [app].
  replace (omap slot_of (with_clock None now calls))
    with (omap slot_of calls)
    by (unfold with_clock; now destruct calls).
  unfold calls, dispatch_calls. rewrite omap_app.
  replace (omap slot_of (console_part level args _ _ (st_L s)))
    with (@nil nat) by (unfold console_part; now destruct (negb _ && _)).
  cbn [app]. fold (invoked_slots (sink_calls level args
    (fresh_event level file line fmt) (st_clock s (st_ticks s)) 0
    (take MAX_CALLBACKS (L_callbacks (st_L s))))).
  rewrite sink_calls_slots. fold (registered (st_L s)).
  apply List.filter_ext. intros j. now rewrite Nat.sub_0_r.
Qed.

End DispatchTrace.

(** *** Filling the registry *)

Lemma Callback_of_has_fn reqs :
  Forall (fun cb => has_fn cb = true) (map Callback_of reqs).
Proof. induction reqs; constructor; auto. Qed.

Lemma slots_of_length cbs : length (slots_of cbs) = MAX_CALLBACKS.
Proof.
  unfold slots_of. rewrite length_app, length_take, length_replicate. lia.
Qed.

Lemma slots_of_room cbs :
  (length cbs < MAX_CALLBACKS)%nat ->
  slots_of cbs
  = cbs ++ Callback_zero
        :: replicate (MAX_CALLBACKS - S (length cbs)) Callback_zero.
Proof.
  intros Hlt. unfold slots_of. rewrite take_ge by lia.
  replace (MAX_CALLBACKS - length cbs)%nat
    with (S (MAX_CALLBACKS - S (length cbs))) by lia.
  reflexivity.
Qed.

Lemma slots_of_full cbs more :
  (MAX_CALLBACKS <= length cbs)%nat -> slots_of (cbs ++ more) = slots_of cbs.
Proof.
  intros Hge. unfold slots_of. rewrite take_app_le by lia.
  rewrite length_app.
  replace (MAX_CALLBACKS - (length cbs + length more))%nat with 0%nat by lia.
  replace (MAX_CALLBACKS - length cbs)%nat with 0%nat by lia.
  reflexivity.
Qed.

Lemma slots_of_store cbs cb :
  (length cbs < MAX_CALLBACKS)%nat ->
  <[length cbs := cb]> (slots_of cbs) = slots_of (cbs ++ [cb]).
Proof.
  intros Hlt. rewrite slots_of_room by assumption.
  replace (length cbs) with (length cbs + 0)%nat at 1 by lia.
  rewrite insert_app_r. cbn [list_insert insert].
  unfold slots_of. rewrite take_ge by (rewrite length_app; simpl; lia).
  rewrite length_app, <- app_assoc. cbn [length app].
  now replace (length cbs + 1)%nat with (S (length cbs)) by lia.
Qed.

Lemma slots_of_find cbs :
  Forall (fun cb => has_fn cb = true) cbs ->
  list_find (fun c => cb_fn c = None) (take MAX_CALLBACKS (slots_of cbs))
  = if (length cbs <? MAX_CALLBACKS)%nat
    then Some (length cbs, Callback_zero) else None.
Proof.
  intros Hall. rewrite take_ge by (rewrite slots_of_length; lia).
  destruct (length cbs <? MAX_CALLBACKS)%nat eqn:Hlt.
  - apply Nat.ltb_lt in Hlt. rewrite slots_of_room by assumption.
    apply list_find_Some. split; [|split].
    + now rewrite list_lookup_middle.
    + reflexivity.
    + intros j y Hj Hlt'. rewrite lookup_app_l in Hj by assumption.
      rewrite Forall_lookup in Hall. specialize (Hall j y Hj).
      intros Hy. apply has_fn_free in Hy. congruence.
  - apply Nat.ltb_ge in Hlt. apply list_find_None.
    unfold slots_of.
    replace (MAX_CALLBACKS - length cbs)%nat with 0%nat by lia.
    rewrite app_nil_r. apply Forall_take.
    eapply Forall_impl; [exact Hall|]. intros y Hy Hfree.
    apply has_fn_free in Hfree. congruence.
Qed.

Lemma slots_of_registered cbs :
  Forall (fun cb => has_fn cb = true) cbs ->
  take_while has_fn (take MAX_CALLBACKS (slots_of cbs))
  = take MAX_CALLBACKS cbs.
Proof.
  intros Hall. rewrite take_ge by (rewrite slots_of_length; lia).
  unfold slots_of. destruct (MAX_CALLBACKS - length cbs)%nat.
  - rewrite app_nil_r. apply take_while_all. now apply Forall_take.
  - apply take_while_app; [now apply Forall_take | reflexivity].
Qed.

Lemma set_callbacks_same s :
  set_callbacks (L_callbacks (st_L s)) s = s.
Proof. destruct s as [[] ? ?]; reflexivity. Qed.

Lemma register_all_spec reqs : forall done s,
  L_callbacks (st_L s) = slots_of (map Callback_of done) ->
  register_all reqs s
  = (map registration_result (seq (length done) (length reqs)),
     set_callbacks (slots_of (map Callback_of (done ++ reqs))) s, []).
Proof.
  induction reqs as [|[[f udata] level] reqs IH]; intros done s Hs.
  - rewrite app_nil_r, <- Hs, set_callbacks_same. reflexivity.
  - cbn [register_all]. unfold bind at 1.
    rewrite log_add_callback_spec. unfold addSink_spec.
    rewrite Hs, slots_of_find by apply Callback_of_has_fn.
    rewrite length_map. cbn [length seq map].
    unfold registration_result at 1.
    replace (done ++ (f, udata, level) :: reqs)
      with ((done ++ [(f, udata, level)]) ++ reqs)
      by now rewrite <- app_assoc.
    destruct (length done <? MAX_CALLBACKS)%nat eqn:Hlt.
    + apply Nat.ltb_lt in Hlt.
      rewrite <- (length_map Callback_of done) at 1.
      rewrite slots_of_store by now rewrite length_map.
      change ([mk_Callback (Some f) udata level])
        with (map Callback_of [(f, udata, level)]).
      rewrite <- map_app. unfold bind.
      erewrite (IH (done ++ [(f, udata, level)])) by reflexivity.
      rewrite length_app. cbn [length ret].
      replace (length done + 1)%nat with (S (length done)) by lia.
      reflexivity.
    + apply Nat.ltb_ge in Hlt. unfold bind.
      erewrite (IH (done ++ [(f, udata, level)])).
      * rewrite length_app. cbn [length ret].
        replace (length done + 1)%nat with (S (length done)) by lia.
        reflexivity.
      * rewrite Hs, map_app. symmetry. apply slots_of_full.
        now rewrite length_map.
Qed.

(** *** Small facts used by the main theorems *)

Lemma invoked_slots_length tr :
  length (invoked_slots tr) = length (registered_calls tr).
Proof.
  unfold invoked_slots, registered_calls.
  induction tr as [|e tr IH]; [reflexivity|].
  destruct e; simpl; try exact IH. f_equal; exact IH.
Qed.

Lemma set_quiet_final b s :
  final (log_set_quiet b s)
  = mk_state
      (mk_Registry (L_udata (st_L s)) (L_lock (st_L s)) (L_level (st_L s)) b
         (L_callbacks (st_L s)))
      (st_clock s) (st_ticks s).
Proof. reflexivity. Qed.

Lemma set_lock_final fn udata s :
  final (log_set_lock fn udata s)
  = mk_state
      (mk_Registry udata fn (L_level (st_L s)) (L_quiet (st_L s))
         (L_callbacks (st_L s)))
      (st_clock s) (st_ticks s).
Proof. reflexivity. Qed.

Lemma level_ge_true a b : level_ge a b = true <-> level_val b <= level_val a.
Proof. unfold level_ge. rewrite Z.geb_le. reflexivity. Qed.

Lemma level_ge_false a b : level_ge a b = false <-> level_val a < level_val b.
Proof.
  unfold level_ge. rewrite Z.geb_leb, Z.leb_gt. reflexivity.
Qed.

(** The loop makes exactly the calls owed to the slots it runs over. *)
Lemma sink_calls_owed level file line fmt args t : forall l i,
  Forall (fun cb => has_fn cb = true) l ->
  sink_calls level args (fresh_event level file line fmt) t i l
  = omap id
      (imap (fun k => owed_call level file line fmt args t (i + k)) l).
Proof.
  induction l as [|cb l IH]; intros i Hall; [reflexivity|].
  inversion Hall as [|? ? Hcb Hrest]; subst.
  cbn [sink_calls]. rewrite imap_cons. cbn [omap list_omap id].
  unfold owed_call at 1. unfold has_fn in Hcb.
  destruct (cb_fn cb) as [f|]; [|discriminate].
  rewrite Nat.add_0_r, (IH (S i) Hrest).
  rewrite (imap_ext
             (fun k => owed_call level file line fmt args t (S i + k))
             ((fun k => owed_call level file line fmt args t (i + k)) ∘ S) l)
    by (intros k x _; cbn; now rewrite Nat.add_succ_r).
  destruct (level_ge level (cb_level cb)); reflexivity.
Qed.

(** The calls a dispatch makes to registered sinks are the calls owed to
    the registrations in force. *)
Lemma trace_registered_owed level file line fmt args s :
  registered_calls (trace (log_log level file line fmt args s))
  = owed_calls level file line fmt args (st_clock s (st_ticks s))
      (registered (st_L s)).
Proof.
  rewrite trace_registered_calls, sink_calls_registered.
  fold (registered (st_L s)). unfold owed_calls.
  rewrite sink_calls_owed; [reflexivity|].
  unfold registered. clear.
  induction (take MAX_CALLBACKS (L_callbacks (st_L s))) as [|x l IH];
    cbn [take_while]; [constructor|].
  destruct (has_fn x) eqn:Hx; constructor; assumption.
Qed.

(** ** The claims *)

(** C1, as amended.  A dispatch whose severity is strictly below the global
    minimum level never invokes the default console sink, whatever the
    quiet flag.  The registered sinks are not subject to the global level:
    the slots invoked are exactly the registrations whose own minimum
    level the severity reaches, in slot order, and the clock is read once
    when at least one of them is invoked and not at all otherwise.  The
    sink invocations of the dispatch are exactly the calls owed to the
    registrations in force: each one that accepts the severity gets one
    call of its own function, with the event bound to its own context. *)
Theorem dispatch_below_global_level level file line fmt args s :
  level_val level < level_val (L_level (st_L s)) ->
  let tr := trace (log_log level file line fmt args s) in
  console_calls tr = []
  /\ invoked_slots tr
     = List.filter (qualifies level (registered (st_L s)))
         (seq 0 (length (registered (st_L s))))
  /\ clock_queries tr
     = match invoked_slots tr with [] => 0%nat | _ :: _ => 1%nat end
  /\ registered_calls tr
     = owed_calls level file line fmt args (st_clock s (st_ticks s))
         (registered (st_L s))
  /\ sink_invocations tr = registered_calls tr.
Proof.
  intros Hlt tr. apply level_ge_false in Hlt.
  assert (Hconsole : console_calls tr = []).
  { unfold tr. rewrite trace_console_calls. unfold console_part.
    now rewrite Hlt, andb_false_r. }
  split; [exact Hconsole|]. split; [apply trace_invoked_slots|].
  pose proof (invoked_slots_length tr) as Hlen.
  unfold tr in *. split; [|split].
  - rewrite trace_clock_queries.
    rewrite trace_registered_calls in Hlen.
    rewrite trace_console_calls in Hconsole.
    unfold dispatch_calls. rewrite Hconsole. cbn [app].
    destruct (sink_calls _ _ _ _ _ _), (invoked_slots _);
      try discriminate; reflexivity.
  - apply trace_registered_owed.
  - rewrite trace_sink_invocations, trace_registered_calls.
    rewrite trace_console_calls in Hconsole.
    unfold dispatch_calls. now rewrite Hconsole.
Qed.

(** C2.  With the quiet flag set the default console sink is not invoked,
    and the calls made to the registered sinks (which slots, in which
    order, with which function and which event) are those of the same
    dispatch with the flag cleared: every registration whose minimum
    level the severity reaches is invoked.  They are exactly the calls
    owed to the registrations in force (one call of its own function, with
    the event bound to its own context, for each registration that accepts
    the severity), and they are all the sink invocations of the quiet
    dispatch. *)
Theorem quiet_mutes_only_console level file line fmt args s :
  let quiet_run :=
    trace (log_log level file line fmt args (final (log_set_quiet true s))) in
  let loud_run :=
    trace (log_log level file line fmt args (final (log_set_quiet false s))) in
  console_calls quiet_run = []
  /\ registered_calls quiet_run = registered_calls loud_run
  /\ invoked_slots quiet_run
     = List.filter (qualifies level (registered (st_L s)))
         (seq 0 (length (registered (st_L s))))
  /\ registered_calls quiet_run
     = owed_calls level file line fmt args (st_clock s (st_ticks s))
         (registered (st_L s))
  /\ sink_invocations quiet_run = registered_calls quiet_run.
Proof.
  cbn zeta. rewrite !set_quiet_final. split; [|split; [|split; [|split]]].
  - rewrite trace_console_calls. reflexivity.
  - rewrite !trace_registered_calls. reflexivity.
  - rewrite trace_invoked_slots. reflexivity.
  - rewrite trace_registered_owed. reflexivity.
  - rewrite trace_sink_invocations, trace_registered_calls. reflexivity.
Qed.

(** C3.  Leaving the lock hook aside, a dispatch makes either no call at
    all or one clock query followed by sink invocations only: the clock is
    read at most once, immediately before the first sink that runs, and
    not at all when no sink runs.  Every sink invoked is handed an event
    whose timestamp is that one reading. *)
Theorem timestamp_captured_once level file line fmt args s :
  let run := log_log level file line fmt args s in
  let t := st_clock s (st_ticks s) in
  unlocked (trace run)
  = match sink_invocations (trace run) with
    | [] => []
    | _ :: _ => ClockQuery t :: sink_invocations (trace run)
    end
  /\ Forall (fun e => exists ev, event_of e = Some ev /\ ev_time ev = Some t)
       (sink_invocations (trace run))
  /\ clock_queries (trace run)
     = match sink_invocations (trace run) with
       | [] => 0%nat
       | _ :: _ => 1%nat
       end
  /\ st_ticks (final run) = (st_ticks s + clock_queries (trace run))%nat.
Proof.
  cbn zeta. rewrite trace_unlocked, trace_sink_invocations,
    trace_clock_queries, log_log_final.
  split; [unfold with_clock; now destruct (dispatch_calls _ _ _ _ _ _)|].
  split; [|split; [reflexivity|]].
  - unfold dispatch_calls, console_part. apply Forall_app. split.
    + destruct (negb _ && _); repeat constructor. eexists; split; reflexivity.
    + eapply Forall_impl; [apply sink_calls_shape|].
      intros e (j & f & u & -> & _). eexists; split; reflexivity.
  - unfold after_clock. destruct (dispatch_calls _ _ _ _ _ _); simpl; lia.
Qed.

(** C4.  Starting from a registry without sinks, the first 32
    registrations return 0 and are stored in order; every later one
    returns -1 and leaves the whole state as it was.  No registration
    makes a call to the outside. *)
Theorem registration_capacity reqs f udata level s :
  let s0 := set_callbacks (replicate MAX_CALLBACKS Callback_zero) s in
  let run := register_all reqs s0 in
  result run
  = map (fun k => if (k <? 32)%nat then 0 else -1) (seq 0 (length reqs))
  /\ trace run = []
  /\ registered (st_L (final run)) = take 32 (map Callback_of reqs)
  /\ log_add_callback (Some f) udata level (final run)
     = if (length reqs <? 32)%nat
       then (0,
             set_callbacks
               (slots_of (map Callback_of (reqs ++ [(f, udata, level)]))) s0,
             [])
       else (-1, final run, []).
Proof.
  cbn zeta.
  rewrite (register_all_spec reqs []) by reflexivity.
  unfold result, trace, final; cbn [fst snd app length].
  split; [reflexivity|]. split; [reflexivity|]. split.
  - unfold registered. cbn [set_callbacks st_L L_callbacks].
    apply slots_of_registered, Callback_of_has_fn.
  - rewrite log_add_callback_spec. unfold addSink_spec.
    cbn [set_callbacks st_L L_callbacks].
    rewrite slots_of_find by apply Callback_of_has_fn.
    rewrite length_map. change 32%nat with MAX_CALLBACKS.
    destruct (length reqs <? MAX_CALLBACKS)%nat eqn:Hlt; [|reflexivity].
    apply Nat.ltb_lt in Hlt.
    rewrite <- (length_map Callback_of reqs) at 1.
    rewrite slots_of_store by now rewrite length_map.
    rewrite map_app. reflexivity.
Qed.

(** C5.  Let a sink be registered in slot [i] with minimum level [L2].  A
    dispatch at a severity [L1 < L2] makes no call from that slot; a
    dispatch at a severity [L3 >= L2] makes exactly one, to the function
    of the slot, with the slot's context. *)
Theorem sink_threshold_monotone file line fmt args s i cb f L1 L2 L3 :
  registered (st_L s) !! i = Some cb ->
  cb_fn cb = Some f ->
  cb_level cb = L2 ->
  level_val L1 < level_val L2 ->
  level_val L2 <= level_val L3 ->
  calls_of_slot i (trace (log_log L1 file line fmt args s)) = []
  /\ calls_of_slot i (trace (log_log L3 file line fmt args s))
     = [SinkCall i f
          (mk_Event args fmt file (Some (st_clock s (st_ticks s)))
             (cb_udata cb) line L3)].
Proof.
  intros Hi Hf <- Hlow Hhigh.
  apply level_ge_false in Hlow. apply level_ge_true in Hhigh.
  unfold registered in Hi. rewrite !trace_calls_of_slot. split.
  - rewrite (sink_calls_of_slot L1 _ _ _ _ 0 i cb f Hi Hf).
    now rewrite Hlow.
  - rewrite (sink_calls_of_slot L3 _ _ _ _ 0 i cb f Hi Hf).
    now rewrite Hhigh.
Qed.

(** C6.  In one dispatch the slots invoked are the qualifying
    registrations, each once, in increasing slot order, which is the order
    of registration; a call of the default console sink precedes all of
    them.  The dispatch leaves the registrations as they were, a
    registration keeps every registration in force in its place, and the
    setters do not touch them.  The calls to registered sinks are exactly
    the calls owed to the registrations in force, in their order: one
    call, from its slot, of the function stored there, with the event
    bound to the context stored there; the console call is bound to
    [stderr]. *)
Theorem sinks_run_in_registration_order level file line fmt args s
    fn udata minLevel quiet hook :
  let run := log_log level file line fmt args s in
  invoked_slots (trace run)
  = List.filter (qualifies level (registered (st_L s)))
      (seq 0 (length (registered (st_L s))))
  /\ List.NoDup (invoked_slots (trace run))
  /\ sink_invocations (trace run)
     = console_calls (trace run) ++ registered_calls (trace run)
  /\ registered (st_L (final run)) = registered (st_L s)
  /\ registered (st_L s)
     `prefix_of`
     registered (st_L (final (log_add_callback fn udata minLevel s)))
  /\ registered (st_L (final (log_set_level minLevel s)))
     = registered (st_L s)
  /\ registered (st_L (final (log_set_quiet quiet s))) = registered (st_L s)
  /\ registered (st_L (final (log_set_lock hook udata s)))
     = registered (st_L s)
  /\ registered_calls (trace run)
     = owed_calls level file line fmt args (st_clock s (st_ticks s))
         (registered (st_L s))
  /\ console_calls (trace run)
     = if negb (L_quiet (st_L s)) && level_ge level (L_level (st_L s))
       then [ConsoleCall
               (mk_Event args fmt file (Some (st_clock s (st_ticks s)))
                  stderr line level)]
       else [].
Proof.
  cbn zeta.
  pose proof (trace_registered_owed level file line fmt args s) as Howed.
  rewrite trace_invoked_slots, trace_sink_invocations,
    trace_console_calls, log_log_final, after_clock_L.
  split; [reflexivity|]. split; [|split; [|split; [reflexivity|]]].
  - apply List.NoDup_filter, List.seq_NoDup.
  - rewrite trace_registered_calls. reflexivity.
  - split; [apply registered_add_prefix|].
    split; [reflexivity|]. split; [reflexivity|]. split; [reflexivity|].
    split; [exact Howed | reflexivity].
Qed.

(** C7.  With a lock hook installed, a dispatch calls it with [true]
    first and with [false] last, both times with the stored context, and
    makes no other call to it: everything else the dispatch does lies in
    between.  Without a hook, and so after [log_set_lock] was given a null
    function, the dispatch makes no hook call, and what it does otherwise
    is the same. *)
Theorem lock_hook_brackets_dispatch level file line fmt args s udata :
  let tr := trace (log_log level file line fmt args s) in
  let bare :=
    trace (log_log level file line fmt args (final (log_set_lock None udata s)))
  in
  match L_lock (st_L s) with
  | Some hook =>
      tr = LockCall hook true (L_udata (st_L s)) :: unlocked tr
           ++ [LockCall hook false (L_udata (st_L s))]
      /\ lock_calls tr
         = [LockCall hook true (L_udata (st_L s));
            LockCall hook false (L_udata (st_L s))]
  | None => lock_calls tr = [] /\ tr = unlocked tr
  end
  /\ lock_calls bare = []
  /\ bare = unlocked tr.
Proof.
  cbn zeta. rewrite set_lock_final.
  rewrite !trace_lock_calls, !trace_unlocked, !log_log_trace.
  unfold lock_bracket. cbn [st_L L_lock st_clock st_ticks app].
  rewrite !app_nil_r.
  split; [|split; reflexivity].
  destruct (L_lock (st_L s)); cbn [app]; rewrite ?app_nil_r;
    split; reflexivity.
Qed.

(** C8.  [log_add_fp] is [log_add_callback] applied to the built-in file
    sink and the file handle: same return value, same state.  In the
    spec's words, it stores the file sink with the handle as context in
    the first free slot and returns 0, or returns -1 and changes nothing
    when no slot is free. *)
Theorem add_fp_is_add_callback fp level s :
  log_add_fp fp level s = log_add_callback (Some file_callback) fp level s
  /\ log_add_fp fp level s = addFileSink_spec fp level s.
Proof.
  split; [reflexivity|]. unfold log_add_fp, addFileSink_spec.
  apply log_add_callback_spec.
Qed.

(** C9.  [log_level_string] is a function of the level alone, defined on
    each of the six levels; the six names it returns are pairwise
    distinct. *)
Theorem level_string_total_distinct :
  map log_level_string
    [LOG_TRACE; LOG_DEBUG; LOG_INFO; LOG_WARN; LOG_ERROR; LOG_FATAL]
  = map Some ["TRACE"; "DEBUG"; "INFO"; "WARN"; "ERROR"; "FATAL"]%string
  /\ List.NoDup (map log_level_string
                 [LOG_TRACE; LOG_DEBUG; LOG_INFO; LOG_WARN; LOG_ERROR; LOG_FATAL])
  /\ forall level : log_level,
       In level [LOG_TRACE; LOG_DEBUG; LOG_INFO; LOG_WARN; LOG_ERROR; LOG_FATAL].
Proof.
  split; [reflexivity|]. split.
  - cbv [map log_level_string level_val Z.to_nat Pos.to_nat Pos.iter_op
         Nat.add level_strings lookup list_lookup].
    repeat (apply List.NoDup_cons; [simpl; intuition discriminate|]).
    apply List.NoDup_nil.
  - intros []; simpl; tauto.
Qed.

(** C10.  A dispatch leaves the registry untouched: the global level, the
    quiet flag, the lock hook and its context, and every slot of the sink
    array are after the call what they were before it. *)
Theorem log_log_preserves_registry level file line fmt args s :
  st_L (final (log_log level file line fmt args s)) = st_L s.
Proof. rewrite log_log_final. apply after_clock_L. Qed.

(** ** The statements at work on the demo configuration *)

(** The registry the demo sets up. *)
Example demo_registry :
  L_level (st_L demo_state) = LOG_INFO
  /\ L_quiet (st_L demo_state) = false
  /\ registered (st_L demo_state)
     = [mk_Callback (Some (extern_callback 7)) 77 LOG_TRACE;
        mk_Callback (Some file_callback) 99 LOG_WARN].
Proof. repeat split. Qed.

(** A dispatch at ERROR reaches the console and both sinks, with one
    clock reading shared by the three. *)
Example demo_dispatch_error :
  trace (log_log LOG_ERROR "main.c" 12 "x=%d" [1] demo_state)
  = [ClockQuery 1000;
     ConsoleCall (mk_Event [1] "x=%d" "main.c" (Some 1000) stderr 12 LOG_ERROR);
     SinkCall 0 (extern_callback 7)
       (mk_Event [1] "x=%d" "main.c" (Some 1000) 77 12 LOG_ERROR);
     SinkCall 1 file_callback
       (mk_Event [1] "x=%d" "main.c" (Some 1000) 99 12 LOG_ERROR)].
Proof. reflexivity. Qed.

(** Registering a null function returns 0 and stores the record, but the
    slot still counts as free: the next registration takes it. *)
Example null_callback_leaves_slot_free :
  result (log_add_callback None 5 LOG_WARN demo_state) = 0
  /\ registered (st_L (final (log_add_callback None 5 LOG_WARN demo_state)))
     = registered (st_L demo_state).
Proof. repeat split. Qed.

(** The claim C1 as stated fails: with the global level at INFO, a
    dispatch at DEBUG is below the global level, yet the sink of slot 0,
    registered at TRACE, is invoked and the clock is read. *)
Lemma dispatch_below_global_level_reaches_sink :
  level_val LOG_DEBUG < level_val (L_level (st_L demo_state))
  /\ sink_invocations
       (trace (log_log LOG_DEBUG "main.c" 12 "x=%d" [1] demo_state))
     = [SinkCall 0 (extern_callback 7)
          (mk_Event [1] "x=%d" "main.c" (Some 1000) 77 12 LOG_DEBUG)]
  /\ clock_queries
       (trace (log_log LOG_DEBUG "main.c" 12 "x=%d" [1] demo_state))
     = 1%nat.
Proof. repeat split. Qed.

(** The amended C1 on the same dispatch. *)
Lemma dispatch_below_global_level_witness :
  level_val LOG_DEBUG < level_val (L_level (st_L demo_state))
  /\ console_calls
       (trace (log_log LOG_DEBUG "main.c" 12 "x=%d" [1] demo_state))
     = []
  /\ invoked_slots
       (trace (log_log LOG_DEBUG "main.c" 12 "x=%d" [1] demo_state))
     = [0%nat]
  /\ registered_calls
       (trace (log_log LOG_DEBUG "main.c" 12 "x=%d" [1] demo_state))
     = [SinkCall 0 (extern_callback 7)
          (mk_Event [1] "x=%d" "main.c" (Some 1000) 77 12 LOG_DEBUG)].
Proof.
  assert (H : level_val LOG_DEBUG < level_val (L_level (st_L demo_state)))
    by reflexivity.
  split; [exact H|].
  destruct (dispatch_below_global_level LOG_DEBUG "main.c" 12 "x=%d" [1]
              demo_state H) as (Hconsole & Hslots & _ & Hcalls & _).
  split; [exact Hconsole|]. split; [exact Hslots | exact Hcalls].
Defined.

(** C5 on the file sink of slot 1, registered at WARN: silent at INFO,
    called once at ERROR. *)
Lemma sink_threshold_monotone_witness :
  calls_of_slot 1 (trace (log_log LOG_INFO "main.c" 12 "x=%d" [1] demo_state))
  = []
  /\ calls_of_slot 1
       (trace (log_log LOG_ERROR "main.c" 12 "x=%d" [1] demo_state))
     = [SinkCall 1 file_callback
          (mk_Event [1] "x=%d" "main.c" (Some 1000) 99 12 LOG_ERROR)].
Proof.
  apply (sink_threshold_monotone "main.c" 12 "x=%d" [1] demo_state 1
           (mk_Callback (Some file_callback) 99 LOG_WARN) file_callback
           LOG_INFO LOG_WARN LOG_ERROR).
  - reflexivity.
  - reflexivity.
  - reflexivity.
  - reflexivity.
  - simpl. lia.
Defined.

(** ** Further properties of the registry *)

Lemma final_bind {A B} (m : M A) (k : A -> M B) s :
  final (bind m k s) = final (k (result (m s)) (final (m s))).
Proof.
  unfold bind, final, result. destruct (m s) as [[a s1] o1]. simpl.
  destruct (k a s1) as [[b s2] o2]. reflexivity.
Qed.

Lemma trace_bind {A B} (m : M A) (k : A -> M B) s :
  trace (bind m k s) = trace (m s) ++ trace (k (result (m s)) (final (m s))).
Proof.
  unfold bind, final, result, trace. destruct (m s) as [[a s1] o1]. simpl.
  destruct (k a s1) as [[b s2] o2]. reflexivity.
Qed.

Lemma take_while_none {A} (p : A -> bool) (l : list A) :
  Forall (fun x => p x = false) l -> take_while p l = [].
Proof. destruct 1 as [|x l Hx _]; simpl; [|rewrite Hx]; reflexivity. Qed.

Lemma take_while_app_all {A} (p : A -> bool) (l k : list A) :
  Forall (fun x => p x = true) l ->
  take_while p (l ++ k) = l ++ take_while p k.
Proof.
  induction 1 as [|x l Hx _ IH]; simpl; [reflexivity|].
  now rewrite Hx, IH.
Qed.

Lemma take_while_holds {A} (p : A -> bool) (l : list A) :
  Forall (fun x => p x = true) (take_while p l).
Proof.
  induction l as [|x l IH]; simpl; [constructor|].
  destruct (p x) eqn:Hx; constructor; assumption.
Qed.

Lemma take_while_drop {A} (p : A -> bool) (l : list A) :
  take_while p l ++ drop (length (take_while p l)) l = l.
Proof.
  induction l as [|x l IH]; simpl; [reflexivity|].
  destruct (p x); simpl; [now rewrite IH | reflexivity].
Qed.

Lemma drop_S_drop {A} n (l : list A) : drop (S n) l = drop 1 (drop n l).
Proof. now rewrite drop_drop, Nat.add_1_r. Qed.

Lemma free_not_has_fn l :
  Forall (fun cb => cb_fn cb = None) l ->
  Forall (fun cb => has_fn cb = false) l.
Proof.
  intros H. eapply Forall_impl; [exact H|]. intros cb. apply has_fn_free.
Qed.

(** A well-formed array splits into the registrations in force and free
    slots. *)
Lemma registry_wf_split L :
  registry_wf L ->
  L_callbacks L
  = registered L ++ drop (length (registered L)) (L_callbacks L)
  /\ registered L = take_while has_fn (L_callbacks L).
Proof.
  intros [Hlen _]. unfold registered.
  rewrite take_ge by lia. split; [|reflexivity].
  symmetry. apply take_while_drop.
Qed.

(** An array given as registrations followed by free slots. *)
Lemma registry_wf_build L pre rest :
  L_callbacks L = pre ++ rest ->
  Forall (fun cb => has_fn cb = true) pre ->
  Forall (fun cb => cb_fn cb = None) rest ->
  length (pre ++ rest) = MAX_CALLBACKS ->
  registry_wf L /\ registered L = pre.
Proof.
  intros Hcbs Hpre Hrest Hlen.
  assert (Hreg : registered L = pre).
  { unfold registered. rewrite Hcbs, take_ge by lia.
    rewrite take_while_app_all by assumption.
    rewrite take_while_none by now apply free_not_has_fn.
    apply app_nil_r. }
  split; [|exact Hreg]. split; [now rewrite Hcbs|].
  rewrite Hreg, Hcbs, drop_app_length. exact Hrest.
Qed.

(** The first free slot of a well-formed array is the one right after the
    registrations in force. *)
Lemma find_free_split pre rest :
  Forall (fun cb => has_fn cb = true) pre ->
  Forall (fun cb => cb_fn cb = None) rest ->
  length (pre ++ rest) = MAX_CALLBACKS ->
  list_find (fun c => cb_fn c = None) (take MAX_CALLBACKS (pre ++ rest))
  = match rest with
    | [] => None
    | r :: _ => Some (length pre, r)
    end.
Proof.
  intros Hpre Hrest Hlen. rewrite take_ge by lia.
  destruct rest as [|r rest].
  - apply list_find_None. rewrite app_nil_r.
    eapply Forall_impl; [exact Hpre|]. intros y Hy Hfree.
    apply has_fn_free in Hfree. congruence.
  - apply list_find_Some. split; [|split].
    + now rewrite list_lookup_middle.
    + now inversion Hrest.
    + intros j y Hj Hlt. rewrite lookup_app_l in Hj by assumption.
      rewrite Forall_lookup in Hpre. specialize (Hpre j y Hj).
      intros Hy. apply has_fn_free in Hy. congruence.
Qed.

(** What a registration does to a well-formed registry. *)
Lemma add_callback_wf_spec fn udata level s :
  registry_wf (st_L s) ->
  let pre := registered (st_L s) in
  let cb := mk_Callback fn udata level in
  log_add_callback fn udata level s
  = if (length pre <? MAX_CALLBACKS)%nat
    then (0,
          set_callbacks
            (pre ++ cb :: drop (S (length pre)) (L_callbacks (st_L s))) s, [])
    else (-1, s, []).
Proof.
  intros Hwf pre cb.
  destruct (registry_wf_split _ Hwf) as [Hsplit Hreg].
  destruct Hwf as [Hlen Hfree]. fold pre in Hsplit, Hfree.
  assert (Hpre : Forall (fun c => has_fn c = true) pre)
    by (unfold pre; rewrite Hreg; apply take_while_holds).
  rewrite log_add_callback_spec. unfold addSink_spec.
  rewrite Hsplit at 1.
  rewrite find_free_split by (rewrite <- ?Hsplit; assumption).
  assert (Hle : (length pre <= length (L_callbacks (st_L s)))%nat).
  { pose proof (f_equal length Hsplit) as Hl.
    rewrite length_app in Hl. lia. }
  destruct (drop (length pre) (L_callbacks (st_L s))) as [|r rest] eqn:Hdrop.
  - apply (f_equal length) in Hdrop. rewrite length_drop in Hdrop.
    simpl in Hdrop.
    replace (length pre <? MAX_CALLBACKS)%nat with false; [reflexivity|].
    symmetry. apply Nat.ltb_ge. lia.
  - assert (Hlt : (length pre < MAX_CALLBACKS)%nat).
    { apply (f_equal length) in Hdrop. rewrite length_drop in Hdrop.
      simpl in Hdrop. lia. }
    apply Nat.ltb_lt in Hlt as Hltb. rewrite Hltb.
    rewrite Hsplit at 1.
    replace (length pre) with (length pre + 0)%nat at 1 by lia.
    rewrite insert_app_r. cbn [insert list_insert].
    replace (drop (S (length pre)) (L_callbacks (st_L s))) with rest;
      [reflexivity|].
    rewrite drop_S_drop, Hdrop. reflexivity.
Qed.

Lemma add_callback_wf fn udata level s :
  registry_wf (st_L s) ->
  registry_wf (st_L (final (log_add_callback fn udata level s))).
Proof.
  intros Hwf. rewrite add_callback_wf_spec by assumption. cbn zeta.
  destruct (length _ <? MAX_CALLBACKS)%nat eqn:Hlt; [|exact Hwf].
  apply Nat.ltb_lt in Hlt.
  destruct (registry_wf_split _ Hwf) as [Hsplit Hreg].
  destruct Hwf as [Hlen Hfree].
  remember (registered (st_L s)) as pre eqn:Hp.
  assert (Hpre : Forall (fun c => has_fn c = true) pre)
    by (rewrite Hreg; apply take_while_holds).
  assert (Hrest : Forall (fun cb => cb_fn cb = None)
                    (drop (S (length pre)) (L_callbacks (st_L s)))).
  { rewrite drop_S_drop. now apply Forall_drop. }
  assert (Hlen' :
    length (pre ++ mk_Callback fn udata level
                :: drop (S (length pre)) (L_callbacks (st_L s)))
    = MAX_CALLBACKS).
  { rewrite length_app. cbn [length]. rewrite length_drop. lia. }
  unfold final; cbn [fst snd].
  destruct fn as [f|].
  - eapply (registry_wf_build _ (pre ++ [mk_Callback (Some f) udata level])).
    + cbn [set_callbacks st_L L_callbacks]. now rewrite <- app_assoc.
    + apply Forall_app; split; [assumption | repeat constructor].
    + exact Hrest.
    + now rewrite <- app_assoc.
  - eapply (registry_wf_build _ pre).
    + reflexivity.
    + assumption.
    + constructor; [reflexivity | exact Hrest].
    + exact Hlen'.
Qed.

Lemma L_init_wf : registry_wf L_init.
Proof.
  apply (registry_wf_build L_init [] (replicate MAX_CALLBACKS Callback_zero)).
  - reflexivity.
  - constructor.
  - apply Forall_replicate. reflexivity.
  - apply length_replicate.
Qed.

Lemma run_call_wf c s :
  registry_wf (st_L s) -> registry_wf (st_L (final (run_call c s))).
Proof.
  intros Hwf. destruct c; cbn [run_call]; try exact Hwf.
  - rewrite final_bind. now apply add_callback_wf.
  - rewrite final_bind. now apply add_callback_wf.
  - now rewrite log_log_final, after_clock_L.
Qed.

Lemma run_calls_wf cs : forall s,
  registry_wf (st_L s) -> registry_wf (st_L (final (run_calls cs s))).
Proof.
  induction cs as [|c cs IH]; intros s Hwf; [exact Hwf|].
  cbn [run_calls]. rewrite final_bind. apply IH. now apply run_call_wf.
Qed.

(** X1.  Whatever sequence of calls of the public interface a program
    makes from start-up, the registry keeps its 32 slots and never has a
    registration behind a free slot: the loop of [log_log], which stops at
    the first free slot, cannot miss a registration. *)
Theorem reachable_registry_wf cs clock ticks :
  registry_wf (st_L (final (run_calls cs (mk_state L_init clock ticks)))).
Proof. apply run_calls_wf. exact L_init_wf. Qed.

(** A successful registration of a function on a well-formed registry. *)
Lemma add_callback_wf_registered f udata level s :
  registry_wf (st_L s) ->
  (length (registered (st_L s)) < MAX_CALLBACKS)%nat ->
  let run := log_add_callback (Some f) udata level s in
  result run = 0
  /\ registered (st_L (final run))
     = registered (st_L s) ++ [mk_Callback (Some f) udata level]
  /\ st_clock (final run) = st_clock s
  /\ st_ticks (final run) = st_ticks s.
Proof.
  intros Hwf Hlt. cbn zeta.
  rewrite add_callback_wf_spec by assumption. cbn zeta.
  apply Nat.ltb_lt in Hlt as Hltb. rewrite Hltb.
  split; [reflexivity|]. split; [|split; reflexivity].
  destruct (registry_wf_split _ Hwf) as [Hsplit Hreg].
  destruct Hwf as [Hlen Hfree].
  remember (registered (st_L s)) as pre eqn:Hp.
  unfold final; cbn [fst snd].
  eapply (registry_wf_build _ (pre ++ [mk_Callback (Some f) udata level])).
  - cbn [set_callbacks st_L L_callbacks]. now rewrite <- app_assoc.
  - apply Forall_app; split; [|repeat constructor].
    rewrite Hreg. apply take_while_holds.
  - rewrite drop_S_drop. now apply Forall_drop.
  - rewrite <- app_assoc, length_app. cbn [length app].
    rewrite length_drop. lia.
Qed.

(** X2.  On a well-formed registry a registration of a non-null function
    succeeds exactly when fewer than 32 registrations are in force; it
    then adds the new registration behind all the others and changes none
    of them.  Otherwise it returns -1 and the state stays as it was. *)
Theorem add_callback_appends f udata level s :
  registry_wf (st_L s) ->
  let run := log_add_callback (Some f) udata level s in
  if (length (registered (st_L s)) <? 32)%nat
  then result run = 0
       /\ registered (st_L (final run))
          = registered (st_L s) ++ [mk_Callback (Some f) udata level]
  else result run = -1 /\ final run = s.
Proof.
  intros Hwf run. unfold run. change 32%nat with MAX_CALLBACKS.
  destruct (length _ <? MAX_CALLBACKS)%nat eqn:Hlt.
  - apply Nat.ltb_lt in Hlt.
    destruct (add_callback_wf_registered f udata level s Hwf Hlt)
      as (Hres & Hreg & _).
    split; assumption.
  - rewrite add_callback_wf_spec by assumption. cbn zeta. rewrite Hlt.
    split; reflexivity.
Qed.

(** The slot a registration writes, when one is free, is the one right
    behind the registrations in force. *)
Lemma find_free_registered (l : list Callback) i c :
  list_find (fun c => cb_fn c = None) l = Some (i, c) ->
  length (take_while has_fn l) = i /\ (i < length l)%nat.
Proof.
  intros Hfind. rewrite take_while_find, Hfind.
  apply list_find_Some in Hfind as (Hi & _ & _).
  apply lookup_lt_Some in Hi. rewrite length_take. lia.
Qed.

(** X4.  A registration makes no call to the outside, returns 0 or -1, and
    touches nothing but one slot of the array: on success the slot right
    behind the registrations in force is overwritten, all other slots, the
    lock hook, the levels, the quiet flag and the clock stay as they were;
    on failure the whole state does. *)
Theorem add_callback_frame fn udata level s :
  let run := log_add_callback fn udata level s in
  trace run = []
  /\ (result run = 0 \/ result run = -1)
  /\ final run
     = if result run =? 0
       then set_callbacks
              (<[length (registered (st_L s)) := mk_Callback fn udata level]>
                 (L_callbacks (st_L s))) s
       else s.
Proof.
  cbn zeta. rewrite log_add_callback_spec. unfold addSink_spec.
  destruct (list_find _ _) as [[i c]|] eqn:Hfind.
  - apply find_free_registered in Hfind as [<- _].
    split; [reflexivity|]. split; [left; reflexivity|]. reflexivity.
  - split; [reflexivity|]. split; [right; reflexivity|]. reflexivity.
Qed.

(** The registrations in force after a slot was overwritten. *)
Lemma registered_after_store s i c cb :
  list_find (fun c => cb_fn c = None)
    (take MAX_CALLBACKS (L_callbacks (st_L s))) = Some (i, c) ->
  registered (st_L (set_callbacks (<[i := cb]> (L_callbacks (st_L s))) s))
  = registered (st_L s)
    ++ (if has_fn cb
        then cb :: take_while has_fn
                     (drop (S i) (take MAX_CALLBACKS (L_callbacks (st_L s))))
        else []).
Proof.
  intros Hfind. unfold registered.
  cbn [set_callbacks st_L L_callbacks].
  rewrite (take_while_find (take MAX_CALLBACKS (L_callbacks (st_L s)))), Hfind.
  apply list_find_Some in Hfind as (Hi & Hc & Hbefore).
  assert (Hall : Forall (fun x => has_fn x = true)
                   (take i (take MAX_CALLBACKS (L_callbacks (st_L s))))).
  { apply Forall_lookup_2. intros j x Hj.
    apply lookup_take_Some in Hj as [Hj Hlt].
    specialize (Hbefore j x Hj Hlt).
    destruct (has_fn x) eqn:Hx; [reflexivity|].
    now apply has_fn_free in Hx. }
  pose proof (lookup_lt_Some _ _ _ Hi) as Hlen.
  rewrite length_take in Hlen.
  rewrite take_insert_lt by lia.
  set (l := take MAX_CALLBACKS (L_callbacks (st_L s))) in *.
  rewrite <- (take_drop_middle l i c Hi) at 1.
  assert (Hti : length (take i l) = i)
    by (rewrite length_take; unfold l; rewrite length_take; lia).
  replace i with (length (take i l) + 0)%nat at 1 by lia.
  rewrite insert_app_r. cbn [insert list_insert].
  rewrite take_while_app_all by assumption.
  cbn [take_while]. reflexivity.
Qed.

(** A dispatch looks at the lock hook, the quiet flag, the global level,
    the registrations in force and the clock, and at nothing else. *)
Lemma log_log_trace_ext level file line fmt args s s' :
  L_lock (st_L s') = L_lock (st_L s) ->
  L_udata (st_L s') = L_udata (st_L s) ->
  L_quiet (st_L s') = L_quiet (st_L s) ->
  L_level (st_L s') = L_level (st_L s) ->
  registered (st_L s') = registered (st_L s) ->
  st_clock s' (st_ticks s') = st_clock s (st_ticks s) ->
  trace (log_log level file line fmt args s')
  = trace (log_log level file line fmt args s).
Proof.
  intros Hlock Hudata Hquiet Hlevel Hreg Hclock.
  rewrite !log_log_trace. unfold lock_bracket, dispatch_calls, console_part.
  rewrite (sink_calls_registered _ _ _ _ _ (take _ (L_callbacks (st_L s')))).
  rewrite (sink_calls_registered _ _ _ _ _ (take _ (L_callbacks (st_L s)))).
  fold (registered (st_L s')). fold (registered (st_L s)).
  now rewrite Hlock, Hudata, Hquiet, Hlevel, Hreg, Hclock.
Qed.

(** X3.  Registering a null function is accepted like any other
    registration (0 while a slot is free, -1 otherwise), but it registers
    nothing: the registrations in force are unchanged, and every later
    dispatch makes exactly the calls it would have made without it. *)
Theorem null_callback_registers_nothing udata minLevel f s
    level file line fmt args :
  let run := log_add_callback None udata minLevel s in
  result run = result (log_add_callback (Some f) udata minLevel s)
  /\ registered (st_L (final run)) = registered (st_L s)
  /\ trace (log_log level file line fmt args (final run))
     = trace (log_log level file line fmt args s).
Proof.
  cbn zeta.
  assert (Hreg : registered
                   (st_L (final (log_add_callback None udata minLevel s)))
                 = registered (st_L s)).
  { rewrite log_add_callback_spec. unfold addSink_spec.
    destruct (list_find _ _) as [[i c]|] eqn:Hfind; [|reflexivity].
    unfold final; cbn [fst snd].
    rewrite (registered_after_store _ _ _ _ Hfind). apply app_nil_r. }
  split; [|split; [exact Hreg|]].
  - rewrite !log_add_callback_spec. unfold addSink_spec.
    destruct (list_find _ _) as [[i c]|]; reflexivity.
  - apply log_log_trace_ext; try exact Hreg;
      rewrite log_add_callback_spec; unfold addSink_spec;
      destruct (list_find _ _) as [[i c]|]; reflexivity.
Qed.

(** ** Further properties of the dispatcher *)

Lemma sink_calls_app level args ev t i l1 l2 :
  Forall (fun cb => has_fn cb = true) l1 ->
  sink_calls level args ev t i (l1 ++ l2)
  = sink_calls level args ev t i l1
    ++ sink_calls level args ev t (i + length l1) l2.
Proof.
  intros Hall. revert i.
  induction Hall as [|cb l1 Hcb _ IH]; intros i; cbn [app length sink_calls].
  - now rewrite Nat.add_0_r.
  - unfold has_fn in Hcb. destruct (cb_fn cb); [|discriminate].
    rewrite IH, <- app_assoc.
    now replace (S i + length l1)%nat with (i + S (length l1))%nat by lia.
Qed.

Lemma sink_calls_justified level args ev t : forall l i,
  Forall (fun e => exists k cb f,
            take_while has_fn l !! k = Some cb /\ cb_fn cb = Some f
            /\ level_ge level (cb_level cb) = true
            /\ e = SinkCall (i + k) f (stamped t args (cb_udata cb) ev))
    (sink_calls level args ev t i l).
Proof.
  induction l as [|cb l IH]; intros i; cbn [sink_calls take_while];
    [constructor|].
  unfold has_fn at 1. destruct (cb_fn cb) as [f|] eqn:Hf; [|constructor].
  apply Forall_app; split.
  - destruct (level_ge level (cb_level cb)) eqn:Hge; repeat constructor.
    exists 0%nat, cb, f. rewrite Nat.add_0_r. repeat split; assumption.
  - eapply Forall_impl; [apply (IH (S i))|].
    intros e (k & c & g & Hk & Hg & Hge & ->).
    exists (S k), c, g. repeat split; try assumption.
    now replace (i + S k)%nat with (S i + k)%nat by lia.
Qed.

Lemma sink_calls_silent level args ev t : forall l i,
  Forall (fun cb => level_val level < level_val (cb_level cb))
    (take_while has_fn l) ->
  sink_calls level args ev t i l = [].
Proof.
  induction l as [|cb l IH]; intros i Hall; cbn [sink_calls]; [reflexivity|].
  cbn [take_while] in Hall. unfold has_fn in Hall.
  destruct (cb_fn cb); [|reflexivity].
  inversion Hall as [|? ? Hcb Hrest]; subst.
  apply level_ge_false in Hcb. rewrite Hcb. cbn [app]. now apply IH.
Qed.

Lemma level_ge_fatal l : level_ge LOG_FATAL l = true.
Proof. now destruct l. Qed.

Lemma level_ge_trace l : level_ge l LOG_TRACE = true.
Proof. now destruct l. Qed.

(** X5.  [log_set_level] gates the default console sink and nothing else:
    after it the console is called exactly when the registry is not quiet
    and the severity reaches the new level, while the calls to the
    registered sinks and to the lock hook are those the dispatch would
    have made before. *)
Theorem set_level_gates_console_only newLevel level file line fmt args s :
  let before := trace (log_log level file line fmt args s) in
  let after :=
    trace
      (log_log level file line fmt args (final (log_set_level newLevel s))) in
  registered_calls after = registered_calls before
  /\ lock_calls after = lock_calls before
  /\ console_calls after
     = if negb (L_quiet (st_L s)) && level_ge level newLevel
       then [ConsoleCall
               (mk_Event args fmt file (Some (st_clock s (st_ticks s)))
                  stderr line level)]
       else [].
Proof.
  cbn zeta. rewrite !trace_registered_calls, !trace_lock_calls,
    trace_console_calls.
  repeat split.
Qed.

(** X6.  Installing a lock hook replaces the one installed before, with
    its context: a later dispatch calls the new hook only, around the
    calls it makes otherwise. *)
Theorem set_lock_replaces_hook old oldData new newData
    level file line fmt args s :
  let s' :=
    final ((log_set_lock old oldData;; log_set_lock (Some new) newData) s) in
  trace (log_log level file line fmt args s')
  = LockCall new true newData
    :: unlocked (trace (log_log level file line fmt args s))
    ++ [LockCall new false newData].
Proof.
  cbn zeta. rewrite final_bind, !set_lock_final.
  rewrite trace_unlocked, log_log_trace. reflexivity.
Qed.

(** X7.  Every call a dispatch makes is accounted for by the registry.  A
    sink call from slot [i] goes to the function registered in that slot,
    whose level the severity reaches, with that slot's context; a console
    call is bound to [stderr] and made only when the registry is not quiet
    and the severity reaches the global level; a lock call goes to the
    installed hook with its context.  Every event carries the format, the
    arguments, the file, the line and the level of the call unchanged, and
    the one clock reading. *)
Theorem dispatch_calls_accounted level file line fmt args s :
  let t := st_clock s (st_ticks s) in
  Forall
    (fun e =>
       match e with
       | LockCall hook _ udata =>
           L_lock (st_L s) = Some hook /\ udata = L_udata (st_L s)
       | ClockQuery t' => t' = t
       | ConsoleCall ev =>
           L_quiet (st_L s) = false
           /\ level_val (L_level (st_L s)) <= level_val level
           /\ ev = mk_Event args fmt file (Some t) stderr line level
       | SinkCall i f ev =>
           exists cb,
             registered (st_L s) !! i = Some cb
             /\ cb_fn cb = Some f
             /\ level_val (cb_level cb) <= level_val level
             /\ ev = mk_Event args fmt file (Some t) (cb_udata cb) line level
       end)
    (trace (log_log level file line fmt args s)).
Proof.
  cbn zeta. rewrite log_log_trace.
  assert (Hlock : forall b,
    Forall (fun e => match e with
                     | LockCall hook _ udata =>
                         L_lock (st_L s) = Some hook
                         /\ udata = L_udata (st_L s)
                     | _ => False
                     end) (lock_bracket b (st_L s))).
  { intros b. unfold lock_bracket.
    destruct (L_lock (st_L s)); repeat constructor. }
  apply Forall_app; split; [|apply Forall_app; split].
  - eapply Forall_impl; [apply Hlock|]. intros []; tauto.
  - assert (Hcalls : Forall
      (fun e => match e with
                | ConsoleCall ev =>
                    L_quiet (st_L s) = false
                    /\ level_val (L_level (st_L s)) <= level_val level
                    /\ ev = mk_Event args fmt file
                              (Some (st_clock s (st_ticks s))) stderr line
                              level
                | SinkCall i f ev =>
                    exists cb,
                      registered (st_L s) !! i = Some cb
                      /\ cb_fn cb = Some f
                      /\ level_val (cb_level cb) <= level_val level
                      /\ ev = mk_Event args fmt file
                                (Some (st_clock s (st_ticks s)))
                                (cb_udata cb) line level
                | _ => False
                end) (dispatch_calls level file line fmt args s)).
    { unfold dispatch_calls, console_part. apply Forall_app; split.
      - destruct (negb _ && _) eqn:Hc; repeat constructor.
        + apply andb_true_iff in Hc as [Hq _].
          now destruct (L_quiet (st_L s)).
        + apply andb_true_iff in Hc as [_ Hge].
          now apply level_ge_true in Hge.
      - eapply Forall_impl; [apply sink_calls_justified|].
        intros e (k & cb & f & Hk & Hf & Hge & ->).
        exists cb. repeat split; try assumption.
        now apply level_ge_true in Hge. }
    unfold with_clock.
    destruct (dispatch_calls level file line fmt args s) eqn:Hd.
    + constructor.
    + constructor; [reflexivity|].
      eapply Forall_impl; [exact Hcalls|]. intros []; tauto.
  - eapply Forall_impl; [apply Hlock|]. intros []; tauto.
Qed.

(** X8.  A message logged through [log_fatal] cannot be filtered out by a
    level: every registered sink is invoked, in slot order, whatever its
    minimum level, and the console sink is invoked unless the registry is
    quiet, whatever the global level.  There is one call for each
    registration in force, in their order, and the call for a
    registration goes to the function stored in it, with the event bound
    to the context stored in it. *)
Theorem fatal_reaches_every_sink file line fmt args s :
  let tr := trace (log_fatal file line fmt args s) in
  invoked_slots tr = seq 0 (length (registered (st_L s)))
  /\ console_calls tr
     = (if L_quiet (st_L s) then []
        else [ConsoleCall
                (mk_Event args fmt file (Some (st_clock s (st_ticks s)))
                   stderr line LOG_FATAL)])
  /\ Forall2
       (fun e cb =>
          exists i f,
            cb_fn cb = Some f
            /\ e = SinkCall i f
                     (mk_Event args fmt file (Some (st_clock s (st_ticks s)))
                        (cb_udata cb) line LOG_FATAL))
       (registered_calls tr) (registered (st_L s))
  /\ registered_calls tr
     = owed_calls LOG_FATAL file line fmt args (st_clock s (st_ticks s))
         (registered (st_L s)).
Proof.
  cbn zeta. unfold log_fatal.
  assert (Hcalls :
    Forall2
      (fun e cb =>
         exists i f,
           cb_fn cb = Some f
           /\ e = SinkCall i f
                    (mk_Event args fmt file (Some (st_clock s (st_ticks s)))
                       (cb_udata cb) line LOG_FATAL))
      (registered_calls (trace (log_log LOG_FATAL file line fmt args s)))
      (registered (st_L s))).
  { rewrite trace_registered_calls, sink_calls_registered.
    fold (registered (st_L s)). generalize 0%nat.
    assert (Hall : Forall (fun cb => has_fn cb = true) (registered (st_L s)))
      by (unfold registered; apply take_while_holds).
    induction Hall as [|cb l Hcb _ IH]; intros i; cbn [sink_calls];
      [constructor|].
    unfold has_fn in Hcb. destruct (cb_fn cb) as [f|] eqn:Hf; [|discriminate].
    rewrite level_ge_fatal. cbn [app]. constructor; [|apply IH].
    exists i, f. split; [exact Hf | reflexivity]. }
  split; [|split; [|split; [exact Hcalls | apply trace_registered_owed]]];
    rewrite ?trace_invoked_slots, ?trace_console_calls.
  - apply filter_all. apply Forall_forall. intros k Hk.
    apply list_elem_of_In, in_seq in Hk. unfold qualifies.
    destruct (registered (st_L s) !! k) as [cb|] eqn:Hcb;
      [apply level_ge_fatal|].
    apply lookup_ge_None in Hcb. lia.
  - unfold console_part. rewrite level_ge_fatal, andb_true_r.
    now destruct (L_quiet (st_L s)).
Qed.

(** X9.  Out of the box (no setter called, nothing registered) a dispatch
    at any level reads the clock once and calls the console sink on
    [stderr], and does nothing else. *)
Theorem default_registry_logs_to_console level file line fmt args clock ticks :
  log_log level file line fmt args (mk_state L_init clock ticks)
  = (tt, mk_state L_init clock (S ticks),
     [ClockQuery (clock ticks);
      ConsoleCall
        (mk_Event args fmt file (Some (clock ticks)) stderr line level)]).
Proof.
  rewrite log_log_spec. cbn zeta.
  unfold dispatch_calls, console_part, lock_bracket.
  cbn [st_L L_init L_quiet L_level L_lock L_callbacks st_clock st_ticks negb
       andb].
  rewrite level_ge_trace.
  rewrite sink_calls_registered.
  replace (take_while has_fn
             (take MAX_CALLBACKS (replicate MAX_CALLBACKS Callback_zero)))
    with (@nil Callback) by reflexivity.
  reflexivity.
Qed.

(** X10.  A dispatch that the console gate rejects and whose severity is
    below the level of every registered sink does nothing but bracket
    itself with the lock hook: no sink is called, the clock is not read,
    and the whole state is left as it was. *)
Theorem filtered_dispatch_is_silent level file line fmt args s :
  L_quiet (st_L s) = true
  \/ level_val level < level_val (L_level (st_L s)) ->
  Forall (fun cb => level_val level < level_val (cb_level cb))
    (registered (st_L s)) ->
  log_log level file line fmt args s
  = (tt, s,
     match L_lock (st_L s) with
     | Some hook =>
         [LockCall hook true (L_udata (st_L s));
          LockCall hook false (L_udata (st_L s))]
     | None => []
     end).
Proof.
  intros Hconsole Hsinks. rewrite log_log_spec. cbn zeta.
  unfold dispatch_calls, console_part.
  rewrite sink_calls_silent by exact Hsinks.
  replace (negb (L_quiet (st_L s)) && level_ge level (L_level (st_L s)))
    with false.
  - unfold lock_bracket. now destruct (L_lock (st_L s)).
  - symmetry. destruct Hconsole as [Hq|Hlt].
    + now rewrite Hq.
    + apply level_ge_false in Hlt. rewrite Hlt. apply andb_false_r.
Qed.

Lemma sink_calls_length_time level args ev t t' : forall i l,
  length (sink_calls level args ev t i l)
  = length (sink_calls level args ev t' i l).
Proof.
  intros i l. revert i.
  induction l as [|cb l IH]; intros i; cbn [sink_calls]; [reflexivity|].
  destruct (cb_fn cb); [|reflexivity].
  rewrite !length_app, (IH (S i)).
  now destruct (level_ge level (cb_level cb)).
Qed.

Lemma dispatch_calls_time level file line fmt args s :
  Forall (fun e => exists ev,
            event_of e = Some ev
            /\ ev_time ev = Some (st_clock s (st_ticks s)))
    (dispatch_calls level file line fmt args s).
Proof.
  unfold dispatch_calls, console_part. apply Forall_app. split.
  - destruct (negb _ && _); repeat constructor. eexists; split; reflexivity.
  - eapply Forall_impl; [apply sink_calls_shape|].
    intros e (j & f & u & -> & _). eexists; split; reflexivity.
Qed.

(** X11.  The timestamp is never carried over from one dispatch to the
    next: of two dispatches in a row, the second makes the calls it would
    make on its own, reads the clock itself when one of its sinks runs,
    and hands its sinks that later reading. *)
Theorem consecutive_dispatches_fresh_timestamp
    level1 file1 line1 fmt1 args1 level2 file2 line2 fmt2 args2 s :
  let first := log_log level1 file1 line1 fmt1 args1 s in
  let second := log_log level2 file2 line2 fmt2 args2 (final first) in
  let alone := log_log level2 file2 line2 fmt2 args2 s in
  trace ((log_log level1 file1 line1 fmt1 args1;;
          log_log level2 file2 line2 fmt2 args2) s)
  = trace first ++ trace second
  /\ invoked_slots (trace second) = invoked_slots (trace alone)
  /\ (console_calls (trace second) = []
      <-> console_calls (trace alone) = [])
  /\ clock_queries (trace second) = clock_queries (trace alone)
  /\ Forall
       (fun e => exists ev,
          event_of e = Some ev
          /\ ev_time ev
             = Some (st_clock s
                       (st_ticks s + clock_queries (trace first))%nat))
       (sink_invocations (trace second)).
Proof.
  cbn zeta. rewrite trace_bind.
  assert (Hfinal :
    final (log_log level1 file1 line1 fmt1 args1 s)
    = mk_state (st_L s) (st_clock s)
        (st_ticks s
         + clock_queries (trace (log_log level1 file1 line1 fmt1 args1 s)))).
  { rewrite log_log_final, trace_clock_queries. unfold after_clock, ticked.
    destruct (dispatch_calls _ _ _ _ _ s); cbn [Nat.add].
    - rewrite Nat.add_0_r. now destruct s.
    - now rewrite Nat.add_1_r. }
  rewrite Hfinal. clear Hfinal.
  generalize (clock_queries (trace (log_log level1 file1 line1 fmt1 args1 s))).
  intros n1. split; [reflexivity|].
  rewrite !trace_invoked_slots, !trace_console_calls, !trace_clock_queries,
    trace_sink_invocations.
  split; [reflexivity|]. split; [|split].
  - unfold console_part. cbn [st_L]. destruct (negb _ && _); split; congruence.
  - unfold dispatch_calls, console_part. cbn [st_L st_clock st_ticks].
    destruct (negb _ && _); [reflexivity|]. cbn [app].
    pose proof (sink_calls_length_time level2 args2
      (fresh_event level2 file2 line2 fmt2)
      (st_clock s (st_ticks s + n1)%nat)
      (st_clock s (st_ticks s)) 0
      (take MAX_CALLBACKS (L_callbacks (st_L s)))) as Hlen.
    destruct (sink_calls _ _ _ _ _ _), (sink_calls _ _ _ _ _ _);
      try discriminate; reflexivity.
  - apply (dispatch_calls_time level2 file2 line2 fmt2 args2
             (mk_state (st_L s) (st_clock s) (st_ticks s + n1))).
Qed.

(** X12.  Registration followed by dispatch: a sink registered
    successfully on a well-formed registry is called by the next dispatch
    whose severity reaches its level, after all the calls the dispatch
    made before it was registered, with its own context; the other calls
    are unchanged, and below its level the dispatch is unchanged. *)
Theorem registered_sink_is_called_last f udata minLevel
    level file line fmt args s :
  registry_wf (st_L s) ->
  (length (registered (st_L s)) < 32)%nat ->
  let s' := final (log_add_callback (Some f) udata minLevel s) in
  registered_calls (trace (log_log level file line fmt args s'))
  = registered_calls (trace (log_log level file line fmt args s))
    ++ (if level_ge level minLevel
        then [SinkCall (length (registered (st_L s))) f
                (mk_Event args fmt file (Some (st_clock s (st_ticks s)))
                   udata line level)]
        else [])
  /\ console_calls (trace (log_log level file line fmt args s'))
     = console_calls (trace (log_log level file line fmt args s))
  /\ lock_calls (trace (log_log level file line fmt args s'))
     = lock_calls (trace (log_log level file line fmt args s)).
Proof.
  intros Hwf Hlt. cbn zeta.
  destruct (add_callback_wf_registered f udata minLevel s Hwf Hlt)
    as (_ & Hreg & Hclock & Hticks).
  assert (HL : L_lock (st_L (final (log_add_callback (Some f) udata minLevel s)))
               = L_lock (st_L s)
               /\ L_udata (st_L (final (log_add_callback (Some f) udata
                                         minLevel s)))
                  = L_udata (st_L s)
               /\ L_quiet (st_L (final (log_add_callback (Some f) udata
                                         minLevel s)))
                  = L_quiet (st_L s)
               /\ L_level (st_L (final (log_add_callback (Some f) udata
                                         minLevel s)))
                  = L_level (st_L s)).
  { rewrite log_add_callback_spec. unfold addSink_spec.
    destruct (list_find _ _) as [[i c]|]; repeat split. }
  destruct HL as (Hlock & Hudata & Hquiet & Hlevel).
  rewrite !trace_registered_calls, !trace_console_calls, !trace_lock_calls.
  unfold console_part, lock_bracket.
  rewrite Hlock, Hudata, Hquiet, Hlevel, Hclock, Hticks.
  split; [|split; reflexivity].
  rewrite (sink_calls_registered _ _ _ _ 0 (take _ (L_callbacks (st_L s)))).
  rewrite (sink_calls_registered _ _ _ _ 0 (take _ _)).
  fold (registered (st_L (final (log_add_callback (Some f) udata minLevel s)))).
  fold (registered (st_L s)). rewrite Hreg.
  rewrite sink_calls_app by (unfold registered; apply take_while_holds).
  cbn [sink_calls cb_fn cb_level cb_udata Nat.add].
  now rewrite app_nil_r.
Qed.

(** X2 on the demo configuration: a third sink goes to slot 2. *)
Lemma add_callback_appends_witness :
  result (log_add_callback (Some (extern_callback 8)) 88 LOG_INFO demo_state)
  = 0
  /\ registered
       (st_L (final (log_add_callback (Some (extern_callback 8)) 88 LOG_INFO
                       demo_state)))
     = registered (st_L demo_state)
       ++ [mk_Callback (Some (extern_callback 8)) 88 LOG_INFO].
Proof.
  apply (add_callback_appends (extern_callback 8) 88 LOG_INFO demo_state).
  split; [reflexivity | vm_compute; repeat constructor].
Defined.

(** X10 on the quiet configuration: a WARN message is below the file
    sink's level, so only the lock hook is called. *)
Lemma filtered_dispatch_is_silent_witness :
  log_log LOG_WARN "main.c" 12 "x=%d" [1] quiet_state
  = (tt, quiet_state,
     [LockCall (extern_lock 3) true 33; LockCall (extern_lock 3) false 33]).
Proof.
  apply (filtered_dispatch_is_silent LOG_WARN "main.c" 12 "x=%d" [1]
           quiet_state).
  - left. reflexivity.
  - vm_compute. repeat constructor.
Defined.

(** X12 on the demo configuration: the new sink is called third. *)
Lemma registered_sink_is_called_last_witness :
  registered_calls
    (trace
       (log_log LOG_ERROR "main.c" 12 "x=%d" [1]
          (final (log_add_callback (Some (extern_callback 8)) 88 LOG_INFO
                    demo_state))))
  = registered_calls
      (trace (log_log LOG_ERROR "main.c" 12 "x=%d" [1] demo_state))
    ++ [SinkCall 2 (extern_callback 8)
          (mk_Event [1] "x=%d" "main.c" (Some 1000) 88 12 LOG_ERROR)].
Proof.
  refine (proj1 (registered_sink_is_called_last (extern_callback 8) 88
                   LOG_INFO LOG_ERROR "main.c" 12 "x=%d" [1] demo_state _ _)).
  - split; [reflexivity | vm_compute; repeat constructor].
  - vm_compute. lia.
Defined.

(** ** Properties of the formatting layer *)

Lemma fmt_star_empty_length width :
  Z.of_nat (length (fmt_star_empty width)) = Z.abs width.
Proof. unfold fmt_star_empty. rewrite length_replicate. lia. Qed.

Lemma cstr_colon_length : length (cstr ":") = 1%nat.
Proof. reflexivity. Qed.

Lemma cstr_dots_length : length (cstr "...") = 3%nat.
Proof. reflexivity. Qed.

Ltac list_length :=
  repeat first
    [ rewrite length_app | rewrite length_drop | rewrite length_take
    | rewrite length_replicate
    | progress cbn [length cstr list_ascii_of_string] ].

(** The three ways through [file_loc], with the line number held in full
    by its 32-byte buffer. *)
Lemma file_loc_cases fname line len :
  (length (fmt_d line) <= 31)%nat ->
  let total :=
    Z.of_nat (length (fmt_d line)) + Z.of_nat (length fname) + 1 in
  file_loc fname line len
  = if total >? len then
      if Z.of_nat (length (fmt_d line)) + 5 <=? len
      then Some (cstr "..."
                 ++ drop (Z.to_nat (total - len + 4)) fname
                 ++ cstr ":" ++ fmt_d line)
      else None
    else if total =? len
    then Some (take (Z.to_nat (len - 1))
                 (blank :: fname ++ cstr ":" ++ fmt_d line))
    else Some (replicate (Z.to_nat (len - total - 1)) blank
               ++ fname ++ cstr ":" ++ fmt_d line).
Proof.
  intros Hnb total. unfold file_loc. fold total.
  rewrite (take_ge (fmt_d line)) by lia.
  replace (total - len + 3 + 1) with (total - len + 4) by lia.
  destruct (Z.gtb_spec total len) as [Hgt|Hle].
  - assert (Hroom' : (total - len + 4 <=? Z.of_nat (length fname))
                     = (Z.of_nat (length (fmt_d line)) + 5 <=? len)).
    { destruct (Z.leb_spec (total - len + 4) (Z.of_nat (length fname))),
        (Z.leb_spec (Z.of_nat (length (fmt_d line)) + 5) len);
        try reflexivity; unfold total in *; lia. }
    rewrite Hroom'.
    destruct (Z.leb_spec (Z.of_nat (length (fmt_d line)) + 5) len) as [Hroom|];
      [|reflexivity].
    unfold snprintf. destruct (Z.leb_spec len 0); [lia|].
    f_equal. apply take_ge.
    rewrite !length_app, length_drop, cstr_dots_length, cstr_colon_length.
    unfold total in *. lia.
  - unfold snprintf. destruct (Z.leb_spec len 0); [unfold total in *; lia|].
    destruct (Z.eqb_spec total len) as [Heq|Hne].
    + replace (len - total - 1) with (-1) by lia. reflexivity.
    + f_equal. unfold fmt_star_empty.
      replace (Z.abs_nat (len - total - 1)) with (Z.to_nat (len - total - 1))
        by lia.
      apply take_ge.
      rewrite !length_app, length_replicate, cstr_colon_length.
      unfold total in *. lia.
Qed.

(** X13.  [file_loc] leaves defined behaviour exactly when the location
    does not fit and the buffer has no room for the ellipsis, the colon
    and the line number: it then reads [fname] past its end.  In
    particular a buffer of [nb_digit + 5] bytes or more is always safe. *)
Theorem file_loc_defined fname line len :
  let nb_digit := Z.of_nat (length (fmt_d line)) in
  let total := nb_digit + Z.of_nat (length fname) + 1 in
  file_loc fname line len = None <-> len < total /\ len < nb_digit + 5.
Proof.
  cbn zeta. unfold file_loc, snprintf.
  set (nb := Z.of_nat (length (fmt_d line))).
  set (fl := Z.of_nat (length fname)).
  destruct (Z.gtb_spec (nb + fl + 1) len) as [Hgt|Hle].
  - destruct (Z.leb_spec (nb + fl + 1 - len + 3 + 1) fl) as [Hoff|Hoff].
    + destruct (Z.leb_spec len 0); [unfold nb, fl in *; lia|].
      split; [discriminate | lia].
    + split; [lia | reflexivity].
  - destruct (Z.leb_spec len 0); [unfold nb, fl in *; lia|].
    split; [discriminate | lia].
Qed.

(** X14.  Whenever [file_loc] yields a string, the string has exactly
    [len - 1] characters: the location column has a fixed width, whether
    the location was padded or truncated. *)
Theorem file_loc_fixed_width fname line len out :
  (length (fmt_d line) <= 31)%nat ->
  file_loc fname line len = Some out ->
  Z.of_nat (length out) = len - 1.
Proof.
  intros Hnb. rewrite file_loc_cases by assumption. cbn zeta.
  set (nb := Z.of_nat (length (fmt_d line))).
  set (fl := Z.of_nat (length fname)).
  destruct (Z.gtb_spec (nb + fl + 1) len) as [Hgt|Hle].
  - destruct (Z.leb_spec (nb + 5) len) as [Hroom|]; [|discriminate].
    intros [= <-]. list_length. unfold nb, fl in *. lia.
  - destruct (Z.eqb_spec (nb + fl + 1) len) as [Heq|Hne]; intros [= <-];
      list_length; unfold nb, fl in *; lia.
Qed.

(** X15.  A location shorter than the buffer is right-aligned: blanks
    first, then the file name, a colon and the line number, all of them
    in full. *)
Theorem file_loc_pads fname line len :
  (length (fmt_d line) <= 31)%nat ->
  let total :=
    Z.of_nat (length (fmt_d line)) + Z.of_nat (length fname) + 1 in
  total < len ->
  file_loc fname line len
  = Some (replicate (Z.to_nat (len - total - 1)) blank
          ++ fname ++ cstr ":" ++ fmt_d line).
Proof.
  intros Hnb total Hlt. rewrite file_loc_cases by assumption. cbn zeta.
  fold total.
  destruct (Z.gtb_spec total len); [lia|].
  destruct (Z.eqb_spec total len); [lia|]. reflexivity.
Qed.

(** X16.  A location longer than the buffer is cut at the front: the
    result is an ellipsis, the last [len - nb_digit - 5] characters of the
    file name, a colon and the line number in full. *)
Theorem file_loc_truncates fname line len :
  (length (fmt_d line) <= 31)%nat ->
  let nb_digit := Z.of_nat (length (fmt_d line)) in
  let fname_len := Z.of_nat (length fname) in
  len < nb_digit + fname_len + 1 ->
  nb_digit + 5 <= len ->
  file_loc fname line len
  = Some (cstr "..."
          ++ drop (Z.to_nat (fname_len - (len - nb_digit - 5))) fname
          ++ cstr ":" ++ fmt_d line).
Proof.
  intros Hnb nb fl Hlong Hroom. rewrite file_loc_cases by assumption.
  cbn zeta. fold nb fl.
  destruct (Z.gtb_spec (nb + fl + 1) len); [|lia].
  destruct (Z.leb_spec (nb + 5) len); [|lia].
  now replace (nb + fl + 1 - len + 4) with (fl - (len - nb - 5)) by lia.
Qed.

(** X17.  A location of exactly [len] characters is neither padded nor
    marked as truncated, and does not come out whole: the padding width is
    then -1, which [printf] takes as one blank, and the buffer cuts the
    last two characters off, the end of the line number first. *)
Theorem file_loc_cuts_exact_fit fname line len :
  (length (fmt_d line) <= 31)%nat ->
  Z.of_nat (length (fmt_d line)) + Z.of_nat (length fname) + 1 = len ->
  exists out c1 c2,
    file_loc fname line len = Some out
    /\ out ++ [c1; c2] = blank :: fname ++ cstr ":" ++ fmt_d line.
Proof.
  intros Hnb Hfit. rewrite file_loc_cases by assumption. cbn zeta.
  rewrite Hfit.
  destruct (Z.gtb_spec len len); [lia|]. rewrite Z.eqb_refl.
  set (full := blank :: fname ++ cstr ":" ++ fmt_d line).
  assert (Hlen : Z.of_nat (length full) = len + 1).
  { unfold full. cbn [length]. rewrite !length_app, cstr_colon_length. lia. }
  destruct (drop (Z.to_nat (len - 1)) full) as [|c1 [|c2 [|c3 rest]]] eqn:Hd;
    apply (f_equal length) in Hd as Hdl; rewrite length_drop in Hdl;
    cbn [length] in Hdl; try lia.
  exists (take (Z.to_nat (len - 1)) full), c1, c2. split; [reflexivity|].
  rewrite <- Hd. apply take_drop.
Qed.

(** X18.  The level column lines up in both builds.  Every level name
    fills its [%-5s] field exactly, and every entry of the colour table is
    the level name behind a five-character escape sequence, so that its
    [%-10s] field shows the same five columns. *)
Theorem level_column_aligned (level : log_level) :
  exists name esc,
    log_level_string level = Some name
    /\ length (fmt_s_left 5 (cstr name)) = 5%nat
    /\ length esc = 5%nat
    /\ cstr <$> (level_colors !! Z.to_nat (level_val level))
       = Some (esc ++ cstr name)
    /\ fmt_s_left 10 (esc ++ cstr name) = esc ++ fmt_s_left 5 (cstr name).
Proof.
  destruct level;
    [ exists "TRACE"%string, (ESC :: cstr "[94m")
    | exists "DEBUG"%string, (ESC :: cstr "[36m")
    | exists "INFO"%string, (ESC :: cstr "[32m")
    | exists "WARN"%string, (ESC :: cstr "[33m")
    | exists "ERROR"%string, (ESC :: cstr "[31m")
    | exists "FATAL"%string, (ESC :: cstr "[35m") ];
    repeat split.
Qed.

Section SinkProperties.

Variable strftime : string -> tm -> cstring.
Variable vformat : string -> va_list -> cstring.
Variable getpid : Z.

Lemma level_field_width cfg level :
  exists name,
    LEVEL_STR cfg !! Z.to_nat (level_val level) = Some name
    /\ length (fmt_s_left (if LOG_USE_COLOR cfg then 10 else 5) (cstr name))
       = (if LOG_USE_COLOR cfg then 10 else 5)%nat.
Proof.
  unfold LEVEL_STR. destruct (LOG_USE_COLOR cfg), level;
    eexists; split; reflexivity.
Qed.

(** X19.  The severity never shifts the message: the header the console
    sink prints, in every build, and the header the file sink prints have
    the same length at all six levels, the event being otherwise the
    same. *)
Theorem header_width_independent_of_level cfg ev level1 level2 :
  length <$> stdout_header strftime getpid cfg (set_level level1 ev)
  = length <$> stdout_header strftime getpid cfg (set_level level2 ev)
  /\ length <$> file_header strftime (set_level level1 ev)
     = length <$> file_header strftime (set_level level2 ev).
Proof.
  split.
  - unfold stdout_header.
    change (stdout_location cfg (set_level level1 ev))
      with (stdout_location cfg ev).
    change (stdout_location cfg (set_level level2 ev))
      with (stdout_location cfg ev).
    cbn [ev_time ev_level set_level].
    destruct (ev_time ev) as [t|]; [|reflexivity].
    destruct (stdout_location cfg ev) as [loc|]; [|reflexivity].
    destruct (level_field_width cfg level1) as (n1 & -> & H1).
    destruct (level_field_width cfg level2) as (n2 & -> & H2).
    cbn [fmap option_fmap option_map]. f_equal.
    destruct (LOG_USE_COLOR cfg); rewrite !length_app, H1, H2; reflexivity.
  - unfold file_header. cbn [ev_time ev_level set_level].
    destruct (ev_time ev) as [t|]; [|reflexivity].
    destruct (level_field_width plain_build level1) as (n1 & H1 & W1).
    destruct (level_field_width plain_build level2) as (n2 & H2 & W2).
    cbn [LEVEL_STR plain_build LOG_USE_COLOR] in H1, H2, W1, W2.
    rewrite H1, H2. cbn [fmap option_fmap option_map]. f_equal.
    rewrite !length_app, W1, W2. reflexivity.
Qed.

(** X20.  In a build without [LOG_LOC_ALIGN], every call a dispatch makes
    to a sink of [log.c] is well defined (the timestamp is set, the level
    indexes its table) and stays on one stream: the console sink writes
    header, message and newline to [stderr] and flushes it; the file sink
    of a slot does the same on the handle registered in that slot. *)
Theorem builtin_sinks_write_their_stream cfg level file line fmt args s :
  LOG_LOC_ALIGN cfg = false ->
  Forall
    (fun e =>
       match e with
       | ConsoleCall ev =>
           exists header,
             stdout_callback_body strftime vformat getpid cfg ev
             = Some [Fputs stderr header; Fputs stderr (vformat fmt args);
                     Fputs stderr [newline]; Fflush stderr]
       | SinkCall i file_callback ev =>
           exists cb header,
             registered (st_L s) !! i = Some cb
             /\ file_callback_body strftime vformat ev
                = Some [Fputs (cb_udata cb) header;
                        Fputs (cb_udata cb) (vformat fmt args);
                        Fputs (cb_udata cb) [newline];
                        Fflush (cb_udata cb)]
       | _ => True
       end)
    (trace (log_log level file line fmt args s)).
Proof.
  intros Halign. rewrite log_log_trace.
  assert (Hlock : forall b,
    Forall (fun e => is_lock_call e = true) (lock_bracket b (st_L s))).
  { intros b. unfold lock_bracket.
    destruct (L_lock (st_L s)); repeat constructor. }
  apply Forall_app; split; [|apply Forall_app; split].
  - eapply Forall_impl; [apply Hlock|]. intros []; simpl; try discriminate.
    trivial.
  - assert (Hcalls : Forall
      (fun e =>
         match e with
         | ConsoleCall ev =>
             exists header,
               stdout_callback_body strftime vformat getpid cfg ev
               = Some [Fputs stderr header; Fputs stderr (vformat fmt args);
                       Fputs stderr [newline]; Fflush stderr]
         | SinkCall i file_callback ev =>
             exists cb header,
               registered (st_L s) !! i = Some cb
               /\ file_callback_body strftime vformat ev
                  = Some [Fputs (cb_udata cb) header;
                          Fputs (cb_udata cb) (vformat fmt args);
                          Fputs (cb_udata cb) [newline];
                          Fflush (cb_udata cb)]
         | _ => True
         end) (dispatch_calls level file line fmt args s)).
    { unfold dispatch_calls, console_part. apply Forall_app; split.
      - destruct (negb _ && _); repeat constructor.
        unfold stdout_callback_body, stdout_header, stdout_location.
        rewrite Halign. cbn [ev_time stamped ev_level fresh_event].
        destruct (level_field_width cfg level) as (name & -> & _).
        eexists. reflexivity.
      - eapply Forall_impl; [apply sink_calls_justified|].
        intros e (k & cb & f & Hk & Hf & Hge & ->).
        destruct f; trivial.
        exists cb. unfold file_callback_body, file_header.
        cbn [ev_time stamped ev_level fresh_event].
        destruct (level_field_width plain_build level) as (name & Hn & _).
        cbn [LEVEL_STR plain_build LOG_USE_COLOR] in Hn. rewrite Hn.
        eexists. split; [exact Hk | reflexivity]. }
    unfold with_clock.
    destruct (dispatch_calls level file line fmt args s) eqn:Hd;
      [constructor|].
    constructor; [trivial | exact Hcalls].
  - eapply Forall_impl; [apply Hlock|]. intros []; simpl; try discriminate.
    trivial.
Qed.

End SinkProperties.

(** ** The formatting statements at work *)

(** X14 on a short location: 15 characters in a 16-byte buffer. *)
Lemma file_loc_fixed_width_witness :
  file_loc (cstr "src/main.c") 42 16 = Some (cstr "  src/main.c:42")
  /\ Z.of_nat (length (cstr "  src/main.c:42")) = 16 - 1.
Proof.
  assert (H : file_loc (cstr "src/main.c") 42 16
              = Some (cstr "  src/main.c:42")) by reflexivity.
  split; [exact H|].
  apply (file_loc_fixed_width (cstr "src/main.c") 42 16
           (cstr "  src/main.c:42")); [vm_compute; lia | exact H].
Defined.

(** X15: two blanks in front of a 13-character location. *)
Lemma file_loc_pads_witness :
  file_loc (cstr "src/main.c") 42 16 = Some (cstr "  src/main.c:42").
Proof.
  apply (file_loc_pads (cstr "src/main.c") 42 16);
    [vm_compute; lia | reflexivity].
Defined.

(** X16: the head of a long path gives way to the ellipsis. *)
Lemma file_loc_truncates_witness :
  file_loc (cstr "src/subdir/longname.c") 42 16
  = Some (cstr "...ongname.c:42").
Proof.
  apply (file_loc_truncates (cstr "src/subdir/longname.c") 42 16);
    [vm_compute; lia | reflexivity | vm_compute; discriminate].
Defined.

(** X17: a location of exactly 16 characters loses its line number. *)
Lemma file_loc_cuts_exact_fit_witness :
  exists out c1 c2,
    file_loc (cstr "src/mainfile.c") 5 16 = Some out
    /\ out ++ [c1; c2] = blank :: cstr "src/mainfile.c" ++ cstr ":" ++ fmt_d 5.
Proof.
  apply (file_loc_cuts_exact_fit (cstr "src/mainfile.c") 5 16);
    [vm_compute; lia | reflexivity].
Defined.

Example file_loc_exact_fit_output :
  file_loc (cstr "src/mainfile.c") 5 16 = Some (cstr " src/mainfile.c").
Proof. reflexivity. Qed.

(** X20 on the demo configuration in the plain build. *)
Lemma builtin_sinks_write_their_stream_witness :
  Forall
    (fun e =>
       match e with
       | ConsoleCall ev =>
           exists header,
             stdout_callback_body demo_strftime demo_vformat 4242 plain_build
               ev
             = Some [Fputs stderr header;
                     Fputs stderr (demo_vformat "x=%d" [1]);
                     Fputs stderr [newline]; Fflush stderr]
       | SinkCall i file_callback ev =>
           exists cb header,
             registered (st_L demo_state) !! i = Some cb
             /\ file_callback_body demo_strftime demo_vformat ev
                = Some [Fputs (cb_udata cb) header;
                        Fputs (cb_udata cb) (demo_vformat "x=%d" [1]);
                        Fputs (cb_udata cb) [newline];
                        Fflush (cb_udata cb)]
       | _ => True
       end)
    (trace (log_log LOG_ERROR "main.c" 12 "x=%d" [1] demo_state)).
Proof.
  apply (builtin_sinks_write_their_stream demo_strftime demo_vformat 4242
           plain_build LOG_ERROR "main.c" 12 "x=%d" [1] demo_state).
  reflexivity.
Defined.

(** What the file sink of the demo writes for that dispatch. *)
Example demo_file_record :
  io_text <$>
    file_callback_body demo_strftime demo_vformat
      (mk_Event [1] "x=%d" "main.c" (Some 1000) 99 12 LOG_ERROR)
  = Some (cstr "2023-01-01 12:00:00 ERROR main.c:12: x=%d" ++ [newline]).
Proof. reflexivity. Qed.
